(* ===================================================================== *)
(* Zordzman protocol layer: a shallow embedding of zm/message.py and     *)
(* zm/server.py, and the properties of the protocol specification        *)
(* checked against it.                                                   *)
(*                                                                       *)
(* Layout                                                                *)
(*   1. Python values, exceptions, bytes and str                         *)
(*   2. The library interface the code calls (UTF-8 codec, json)         *)
(*   3. A reference instance of that interface                           *)
(*   4. zm/message.py : registry, Message.encode / decode                *)
(*   5. zm/server.py  : the connection monad, send, _process_message,    *)
(*                      _read_json, handler; then _process_message and   *)
(*                      _read_json over handlers given the connection    *)
(*   5b. The vocabulary of the statements                                *)
(*   6. Theorems                                                         *)
(* ===================================================================== *)

From Stdlib Require Import ZArith NArith Lia Bool.
From Stdlib Require Import Strings.Byte Ascii String DecimalString.
From stdpp Require Import base option list gmap.

Local Open Scope Z_scope.
Set Warnings "-register-all".

(* --------------------------------------------------------------------- *)
(* 1. Python values                                                      *)
(* --------------------------------------------------------------------- *)

(** A Python [bytes] object. *)
Abbreviation bytes := (list Byte.byte).

(** A Python [str]: a sequence of Unicode code points. *)
Abbreviation pystr := (list N).

(** The terminator [b"\x00"]. *)
Definition NUL : Byte.byte := Byte.x00.

#[export] Instance byte_eq_decision : EqDecision Byte.byte := Byte.byte_eq_dec.

(** [str_ "abc"] is the Python literal ['abc'] (one code point per
    character of an ASCII Rocq string). *)
Definition str_ (s : string) : pystr :=
  map N_of_ascii (list_ascii_of_string s).

(** [jstr "{'a': 1}"] is the Python literal ['{"a": 1}']: JSON text is
    written with apostrophes, each standing for one double quote. *)
Definition jstr (s : string) : pystr :=
  map (fun c => if N.eqb c 39 then 34%N else c) (str_ s).

Definition byte_of_N (n : N) : Byte.byte :=
  match Byte.of_N (n mod 256) with
  | Some b => b
  | None => NUL
  end.

(** [bytes_ "abc"] is [b'abc']; [jbytes] is [jstr] for bytes. *)
Definition bytes_ (s : string) : bytes := map byte_of_N (str_ s).
Definition jbytes (s : string) : bytes := map byte_of_N (jstr s).

(** The exceptions that the modelled code can raise or let through. *)
Inductive exn : Type :=
| TypeError
| KeyError
| AttributeError
| ValueError
| UnicodeEncodeError
| MessageError            (* zm.message.MessageError, a ValueError *)
| Invalid                 (* formencode.Invalid *)
| HandlerError (code : N). (* anything a registered handler raises *)

(** Values that flow through the code: what [json.loads] builds, plus
    [bytes].  A [float] keeps the lexeme it was read from; no arithmetic
    is done on it.  A [dict] keeps insertion order, as Python's does. *)
Inductive pyval : Type :=
| PNone
| PBool (b : bool)
| PInt (z : Z)
| PFloat (lexeme : pystr)
| PStr (s : pystr)
| PBytes (b : bytes)
| PList (l : list pyval)
| PDict (d : list (pystr * pyval)).

(** Result of running a piece of Python: it returns, it raises, or the
    model ran out of fuel (which the totality lemmas exclude). *)
Inductive outcome (A : Type) : Type :=
| Ret (a : A)
| Raise (e : exn)
| Fuel.
Arguments Ret {A} a.
Arguments Raise {A} e.
Arguments Fuel {A}.

(** [isinstance(v, dict)] and [isinstance(v, str)]. *)
Definition isinstance_dict (v : pyval) : bool :=
  match v with PDict _ => true | _ => false end.
Definition isinstance_str (v : pyval) : bool :=
  match v with PStr _ => true | _ => false end.

(** [hash(v)] succeeds on everything but [list] and [dict]. *)
Definition hashable (v : pyval) : bool :=
  match v with PList _ | PDict _ => false | _ => true end.

(* dict operations on string keys *)

Fixpoint dict_lookup (k : pystr) (d : list (pystr * pyval)) : option pyval :=
  match d with
  | [] => None
  | (k', v) :: d' => if decide (k = k') then Some v else dict_lookup k d'
  end.

(** [k in d] *)
Definition dict_contains (k : pystr) (d : list (pystr * pyval)) : bool :=
  match dict_lookup k d with Some _ => true | None => false end.

(** [d.get(k)] *)
Definition dict_get (k : pystr) (d : list (pystr * pyval)) : pyval :=
  match dict_lookup k d with Some v => v | None => PNone end.

(** [d[k]] *)
Definition dict_getitem (k : pystr) (d : list (pystr * pyval)) : outcome pyval :=
  match dict_lookup k d with Some v => Ret v | None => Raise KeyError end.

(** [d[k] = v]: overwrite in place, or append a new key. *)
Fixpoint dict_set (k : pystr) (v : pyval) (d : list (pystr * pyval))
  : list (pystr * pyval) :=
  match d with
  | [] => [(k, v)]
  | (k', v') :: d' =>
      if decide (k = k') then (k, v) :: d' else (k', v') :: dict_set k v d'
  end.

(** [a + b] on sequences: defined between two [bytes] or two [str]. *)
Definition py_add (a b : pyval) : outcome pyval :=
  match a, b with
  | PBytes x, PBytes y => Ret (PBytes (x ++ y))
  | PStr x, PStr y => Ret (PStr (x ++ y))
  | PList x, PList y => Ret (PList (x ++ y))
  | PInt x, PInt y => Ret (PInt (x + y))
  | _, _ => Raise TypeError
  end.

(* bytes operations *)

(** [b.find(b"\x00")]: index of the first occurrence, or [-1]. *)
Fixpoint bytes_find (x : Byte.byte) (b : bytes) : Z :=
  match b with
  | [] => -1
  | y :: b' =>
      if Byte.eqb y x then 0
      else let i := bytes_find x b' in if i =? -1 then -1 else i + 1
  end.

(** [b[:i]] and [b[i:]], with Python's reading of a negative index. *)
Definition slice_to (b : bytes) (i : Z) : bytes :=
  if i <? 0 then take (Z.to_nat (Z.of_nat (length b) + i)) b
  else take (Z.to_nat i) b.
Definition slice_from (b : bytes) (i : Z) : bytes :=
  if i <? 0 then drop (Z.to_nat (Z.of_nat (length b) + i)) b
  else drop (Z.to_nat i) b.

(** [b.startswith(p)] *)
Fixpoint startswith (b p : bytes) {struct p} : bool :=
  match p, b with
  | [], _ => true
  | x :: p', y :: b' => Byte.eqb x y && startswith b' p'
  | _ :: _, [] => false
  end.

(* --------------------------------------------------------------------- *)
(* 2. The library interface                                              *)
(* --------------------------------------------------------------------- *)

(** What the code calls in the Python standard library.  The modelled
    functions only depend on whether each call returns or raises, so the
    theorems of section 6 hold for every instance.
    - [bytes_decode raw] is [raw.decode("utf-8")]; [None] stands for
      [UnicodeDecodeError].
    - [str_encode s] is [s.encode("utf-8")].
    - [json_loads s] is [json.loads(s)]; [None] stands for the
      [ValueError] it raises on malformed text.
    - [json_dumps v] is [json.dumps(v)]. *)
Class PyLib : Type := {
  bytes_decode : bytes -> option pystr;
  str_encode : pystr -> outcome bytes;
  json_loads : pystr -> option pyval;
  json_dumps : pyval -> outcome pystr
}.

(* --------------------------------------------------------------------- *)
(* 3. A reference instance                                               *)
(* --------------------------------------------------------------------- *)

Module Utf8.
Local Open Scope N_scope.

Definition between (lo hi b : N) : bool := (lo <=? b) && (b <=? hi).
Definition cont (b : N) : bool := between 0x80 0xBF b.
Definition low6 (b : N) : N := b - 0x80.

(** Strict UTF-8: shortest form only, no surrogates, at most U+10FFFF. *)
Fixpoint decode_N (l : list N) : option pystr :=
  match l with
  | [] => Some []
  | b0 :: r =>
    if b0 <? 0x80 then cons b0 <$> decode_N r
    else if between 0xC2 0xDF b0 then
      match r with
      | b1 :: r1 =>
        if cont b1
        then cons ((b0 - 0xC0) * 64 + low6 b1) <$> decode_N r1
        else None
      | _ => None
      end
    else if between 0xE0 0xEF b0 then
      match r with
      | b1 :: b2 :: r2 =>
        let lo := if b0 =? 0xE0 then 0xA0 else 0x80 in
        let hi := if b0 =? 0xED then 0x9F else 0xBF in
        if between lo hi b1 && cont b2
        then cons ((b0 - 0xE0) * 4096 + low6 b1 * 64 + low6 b2)
               <$> decode_N r2
        else None
      | _ => None
      end
    else if between 0xF0 0xF4 b0 then
      match r with
      | b1 :: b2 :: b3 :: r3 =>
        let lo := if b0 =? 0xF0 then 0x90 else 0x80 in
        let hi := if b0 =? 0xF4 then 0x8F else 0xBF in
        if between lo hi b1 && cont b2 && cont b3
        then cons ((b0 - 0xF0) * 262144 + low6 b1 * 4096
                   + low6 b2 * 64 + low6 b3) <$> decode_N r3
        else None
      | _ => None
      end
    else None
  end.

Definition decode (raw : bytes) : option pystr :=
  decode_N (map Byte.to_N raw).

Definition encode_cp (c : N) : option (list N) :=
  if c <? 0x80 then Some [c]
  else if c <? 0x800 then Some [0xC0 + c / 64; 0x80 + c mod 64]
  else if between 0xD800 0xDFFF c then None
  else if c <? 0x10000 then
    Some [0xE0 + c / 4096; 0x80 + (c / 64) mod 64; 0x80 + c mod 64]
  else if c <? 0x110000 then
    Some [0xF0 + c / 262144; 0x80 + (c / 4096) mod 64;
          0x80 + (c / 64) mod 64; 0x80 + c mod 64]
  else None.

Fixpoint encode (s : pystr) : outcome bytes :=
  match s with
  | [] => Ret []
  | c :: s' =>
    match encode_cp c, encode s' with
    | Some bs, Ret r => Ret (map byte_of_N bs ++ r)
    | None, _ => Raise UnicodeEncodeError
    | _, o => o
    end
  end.
End Utf8.

Module Json.
Local Open Scope N_scope.

Definition is_ws (c : N) : bool :=
  (c =? 32) || (c =? 9) || (c =? 10) || (c =? 13).
Definition is_digit (c : N) : bool := (48 <=? c) && (c <=? 57).

Fixpoint skip_ws (s : pystr) : pystr :=
  match s with
  | c :: r => if is_ws c then skip_ws r else s
  | [] => []
  end.

Fixpoint span_digits (s : pystr) : pystr * pystr :=
  match s with
  | c :: r =>
    if is_digit c then let '(ds, r') := span_digits r in (c :: ds, r')
    else ([], s)
  | [] => ([], [])
  end.

Definition digits_value (ds : pystr) : Z :=
  fold_left (fun acc d => (acc * 10 + Z.of_N (d - 48))%Z) ds 0%Z.

(** [s] starts with the literal [p]: the rest after it. *)
Fixpoint strip_prefix (p s : pystr) : option pystr :=
  match p, s with
  | [], _ => Some s
  | x :: p', y :: s' => if x =? y then strip_prefix p' s' else None
  | _ :: _, [] => None
  end.

(** A number: an optional minus; a zero or a digit string without
    leading zero; an optional fraction (a dot and digits); an optional
    exponent (e or E, an optional sign, digits).  Longest match; an
    [int] when there is neither fraction nor exponent. *)
Definition scan_number (s : pystr) : option (pyval * pystr) :=
  let '(sign, s1) :=
    match s with
    | c :: r => if c =? 45 then ([45], r) else ([], s)
    | [] => ([], s)
    end in
  let int_part :=
    match s1 with
    | c :: r =>
      if c =? 48 then Some ([48], r)
      else if is_digit c
           then let '(ds, r') := span_digits r in Some (c :: ds, r')
           else None
    | [] => None
    end in
  match int_part with
  | None => None
  | Some (ip, r1) =>
    let '(frac, r2) :=
      match r1 with
      | c :: r =>
        if c =? 46 then
          match span_digits r with
          | ([], _) => ([], r1)
          | (fs, r') => (46 :: fs, r')
          end
        else ([], r1)
      | [] => ([], r1)
      end in
    let '(expo, r3) :=
      match r2 with
      | c :: r =>
        if (c =? 101) || (c =? 69) then
          let '(sg, r') :=
            match r with
            | d :: r'' =>
              if (d =? 43) || (d =? 45) then ([d], r'') else ([], r)
            | [] => ([], r)
            end in
          match span_digits r' with
          | ([], _) => ([], r2)
          | (es, r'') => (c :: sg ++ es, r'')
          end
        else ([], r2)
      | [] => ([], r2)
      end in
    match frac, expo with
    | [], [] =>
      let v := digits_value ip in
      Some (PInt (if sign is [] then v else (- v)%Z), r3)
    | _, _ => Some (PFloat (sign ++ ip ++ frac ++ expo), r3)
    end
  end.

Definition hex_digit (c : N) : option N :=
  if is_digit c then Some (c - 48)
  else if (97 <=? c) && (c <=? 102) then Some (c - 87)
  else if (65 <=? c) && (c <=? 70) then Some (c - 55)
  else None.

Definition hex4 (a b c d : N) : option N :=
  a' ← hex_digit a; b' ← hex_digit b; c' ← hex_digit c; d' ← hex_digit d;
  Some (a' * 4096 + b' * 256 + c' * 16 + d').

(** The body of a string literal, after its opening quote (strict mode:
    no raw control characters; a high surrogate escape followed by a
    low surrogate escape is one code point). *)
Fixpoint scanstring (s acc : pystr) : option (pystr * pystr) :=
  match s with
  | [] => None
  | c :: r =>
    if c =? 34 then Some (rev acc, r)
    else if c <? 32 then None
    else if c =? 92 then
      match r with
      | [] => None
      | e :: r' =>
        if e =? 117 then
          match r' with
          | h1 :: h2 :: h3 :: h4 :: r4 =>
            match hex4 h1 h2 h3 h4 with
            | None => None
            | Some u1 =>
              if (0xD800 <=? u1) && (u1 <=? 0xDBFF) then
                match r4 with
                | b :: u :: g1 :: g2 :: g3 :: g4 :: r10 =>
                  if (b =? 92) && (u =? 117) then
                    match hex4 g1 g2 g3 g4 with
                    | None => None
                    | Some u2 =>
                      if (0xDC00 <=? u2) && (u2 <=? 0xDFFF)
                      then scanstring r10
                             (0x10000 + (u1 - 0xD800) * 1024
                              + (u2 - 0xDC00) :: acc)
                      else scanstring r4 (u1 :: acc)
                    end
                  else scanstring r4 (u1 :: acc)
                | _ => scanstring r4 (u1 :: acc)
                end
              else scanstring r4 (u1 :: acc)
            end
          | _ => None
          end
        else
          let plain (x : N) := scanstring r' (x :: acc) in
          if e =? 34 then plain 34
          else if e =? 92 then plain 92
          else if e =? 47 then plain 47
          else if e =? 98 then plain 8
          else if e =? 102 then plain 12
          else if e =? 110 then plain 10
          else if e =? 114 then plain 13
          else if e =? 116 then plain 9
          else None
      end
    else scanstring r (c :: acc)
  end.

(** One JSON value at the head of [s], and the text after it.  A
    repeated object key keeps its first position and its last value. *)
Fixpoint scan_once (fuel : nat) (s : pystr) : option (pyval * pystr) :=
  match fuel with
  | O => None
  | S n =>
    match s with
    | [] => None
    | c :: r =>
      if c =? 34 then '(t, r') ← scanstring r []; Some (PStr t, r')
      else if c =? 123 then
        match skip_ws r with
        | c' :: r' =>
          if c' =? 125 then Some (PDict [], r')
          else members n (c' :: r') []
        | [] => None
        end
      else if c =? 91 then
        match skip_ws r with
        | c' :: r' =>
          if c' =? 93 then Some (PList [], r')
          else elements n (c' :: r') []
        | [] => None
        end
      else
        match strip_prefix (str_ "null") s,
              strip_prefix (str_ "true") s,
              strip_prefix (str_ "false") s with
        | Some r', _, _ => Some (PNone, r')
        | _, Some r', _ => Some (PBool true, r')
        | _, _, Some r' => Some (PBool false, r')
        | _, _, _ =>
          match strip_prefix (str_ "NaN") s,
                strip_prefix (str_ "Infinity") s,
                strip_prefix (str_ "-Infinity") s with
          | Some r', _, _ => Some (PFloat (str_ "NaN"), r')
          | _, Some r', _ => Some (PFloat (str_ "Infinity"), r')
          | _, _, Some r' => Some (PFloat (str_ "-Infinity"), r')
          | _, _, _ => scan_number s
          end
        end
    end
  end
with members (fuel : nat) (s : pystr) (acc : list (pystr * pyval))
  : option (pyval * pystr) :=
  match fuel with
  | O => None
  | S n =>
    match s with
    | q :: r =>
      if q =? 34 then
        '(k, r1) ← scanstring r [];
        match skip_ws r1 with
        | colon :: r2 =>
          if colon =? 58 then
            '(v, r3) ← scan_once n (skip_ws r2);
            let acc' := dict_set k v acc in
            match skip_ws r3 with
            | d :: r4 =>
              if d =? 125 then Some (PDict acc', r4)
              else if d =? 44 then members n (skip_ws r4) acc'
              else None
            | [] => None
            end
          else None
        | [] => None
        end
      else None
    | [] => None
    end
  end
with elements (fuel : nat) (s : pystr) (acc : list pyval)
  : option (pyval * pystr) :=
  match fuel with
  | O => None
  | S n =>
    '(v, r1) ← scan_once n s;
    match skip_ws r1 with
    | d :: r2 =>
      if d =? 93 then Some (PList (acc ++ [v]), r2)
      else if d =? 44 then elements n (skip_ws r2) (acc ++ [v])
      else None
    | [] => None
    end
  end.

(** [json.loads]: one value between optional whitespace, nothing after
    it, and no leading byte-order mark. *)
Definition loads (s : pystr) : option pyval :=
  match s with
  | 0xFEFF :: _ => None
  | _ =>
    '(v, r) ← scan_once (2 * length s + 2) (skip_ws s);
    match skip_ws r with [] => Some v | _ => None end
  end.
End Json.

Module JsonDump.
Local Open Scope N_scope.

Definition hex_char (d : N) : N := if d <? 10 then 48 + d else 87 + d.

(** [\uXXXX], lower-case hexadecimal. *)
Definition u_escape (c : N) : pystr :=
  [92; 117; hex_char (c / 4096); hex_char ((c / 256) mod 16);
   hex_char ((c / 16) mod 16); hex_char (c mod 16)].

(** One character of a string under [ensure_ascii=True]. *)
Definition escape_char (c : N) : pystr :=
  if c =? 34 then [92; 34]
  else if c =? 92 then [92; 92]
  else if c =? 10 then [92; 110]
  else if c =? 13 then [92; 114]
  else if c =? 9 then [92; 116]
  else if c =? 8 then [92; 98]
  else if c =? 12 then [92; 102]
  else if (32 <=? c) && (c <=? 126) then [c]
  else if c <? 0x10000 then u_escape c
  else
    let v := c - 0x10000 in
    u_escape (0xD800 + v / 1024) ++ u_escape (0xDC00 + v mod 1024).

Definition quote (s : pystr) : pystr :=
  34 :: concat (map escape_char s) ++ [34].

Definition decimal (z : Z) : pystr :=
  str_ (NilZero.string_of_int (Z.to_int z)).

(** [json.dumps] with its default separators [", "] and [": "]. *)
Fixpoint dumps (v : pyval) : outcome pystr :=
  match v with
  | PNone => Ret (str_ "null")
  | PBool true => Ret (str_ "true")
  | PBool false => Ret (str_ "false")
  | PInt z => Ret (decimal z)
  | PFloat lexeme => Ret lexeme
  | PStr s => Ret (quote s)
  | PBytes _ => Raise TypeError
  | PList l =>
    let fix items (l : list pyval) (first : bool) : outcome pystr :=
      match l with
      | [] => Ret [93]
      | x :: l' =>
        match dumps x with
        | Ret sx =>
          match items l' false with
          | Ret r => Ret ((if first then [] else [44; 32]) ++ sx ++ r)
          | o => o
          end
        | o => o
        end
      end in
    match items l true with
    | Ret r => Ret (91 :: r)
    | o => o
    end
  | PDict d =>
    let fix pairs (d : list (pystr * pyval)) (first : bool)
      : outcome pystr :=
      match d with
      | [] => Ret [125]
      | (k, x) :: d' =>
        match dumps x with
        | Ret sx =>
          match pairs d' false with
          | Ret r =>
            Ret ((if first then [] else [44; 32])
                 ++ quote k ++ [58; 32] ++ sx ++ r)
          | o => o
          end
        | o => o
        end
      end in
    match pairs d true with
    | Ret r => Ret (123 :: r)
    | o => o
    end
  end.
End JsonDump.

(** The reference instance, on which concrete frames are evaluated. *)
#[export] Instance reference_lib : PyLib := {
  bytes_decode := Utf8.decode;
  str_encode := Utf8.encode;
  json_loads := Json.loads;
  json_dumps := JsonDump.dumps
}.

(** [outcome] is a monad: [x ← m; k] stops at the first raise. *)
#[export] Instance outcome_ret : MRet outcome := fun _ a => Ret a.
#[export] Instance outcome_bind : MBind outcome := fun _ _ k m =>
  match m with
  | Ret a => k a
  | Raise e => Raise e
  | Fuel => Fuel
  end.

(* --------------------------------------------------------------------- *)
(* 4. zm/message.py                                                      *)
(* --------------------------------------------------------------------- *)

(** A formencode validator, as the code uses it: [None] stands for a
    raised [formencode.Invalid]. *)
Record Schema : Type := {
  to_python : pyval -> option pyval;
  from_python : pyval -> option pyval
}.

(** formencode's emptiness test: [None], [''], and an empty list or dict. *)
Definition is_empty (v : pyval) : bool :=
  match v with
  | PNone | PStr [] | PList [] | PDict [] => true
  | _ => false
  end.

(** [formencode.validators.NotEmpty()]: converting to Python rejects an
    empty value and returns any other unchanged; converting from Python
    does not validate and maps an empty value to [None]. *)
Definition NotEmpty : Schema := {|
  to_python v := if is_empty v then None else Some v;
  from_python v := if is_empty v then Some PNone else Some v
|}.

(** A subclass of [Message]: its [type_] and [schema] attributes. *)
Record message_cls : Type := {
  type_ : pystr;
  schema : Schema
}.

(** An instance of a [Message] subclass. *)
Record message : Type := {
  cls : message_cls;
  entity : pyval
}.

(** [MessageMeta.__new__]: the class statement [class name(Message)]
    with the given [type_] and [schema] attributes, run against the
    registry [types].  The base class itself is not registered. *)
Definition MessageMeta_new (name : string) (type_attr : option pystr)
    (schema_attr : option Schema) (types : gmap pystr message_cls)
  : outcome (gmap pystr message_cls) :=
  if String.eqb name "Message" then Ret types
  else
    match type_attr with
    | None | Some [] => Raise TypeError
    | Some tag =>
      match schema_attr with
      | None => Raise TypeError
      | Some sch =>
        match types !! tag with
        | Some _ => Raise TypeError
        | None => Ret (<[tag := {| type_ := tag; schema := sch |}]> types)
        end
      end
    end.

Definition ErrorMessage : message_cls :=
  {| type_ := str_ "error"; schema := NotEmpty |}.

(** [formencode.validators.NotEmpty(accept_python=False)]: converting
    from Python validates too, so both directions reject an empty
    value. *)
Definition NotEmptyStrict : Schema := {|
  to_python v := if is_empty v then None else Some v;
  from_python v := if is_empty v then None else Some v
|}.

(** A second kind, as a module could declare it:
    [class StrictMessage(Message)] with [type_ = "strict"] and the
    schema above. *)
Definition StrictMessage : message_cls :=
  {| type_ := str_ "strict"; schema := NotEmptyStrict |}.

(** [MessageMeta.types] once the module is loaded. *)
Definition module_types : gmap pystr message_cls :=
  match MessageMeta_new "ErrorMessage" (Some (str_ "error")) (Some NotEmpty) ∅
  with
  | Ret types => types
  | _ => ∅
  end.

(** [MessageMeta.types[k]] *)
Definition types_getitem (types : gmap pystr message_cls) (k : pyval)
  : outcome message_cls :=
  if negb (hashable k) then Raise TypeError
  else
    match k with
    | PStr tag =>
      match types !! tag with
      | Some c => Ret c
      | None => Raise KeyError
      end
    | _ => Raise KeyError
    end.

Section Codec.
Context `{PyLib}.

(** [Message.encode] *)
Definition encode (m : message) : outcome pyval :=
  match from_python (schema (cls m)) (entity m) with
  | None => Raise Invalid
  | Some wire =>
    text ← json_dumps (PDict [(str_ "type", PStr (type_ (cls m)));
                              (str_ "entity", wire)]);
    data ← str_encode text;
    py_add (PBytes data) (PStr [0%N])
  end.

(** [Message.decode].  The [print(raw_string)] on the way writes to
    standard output and has no part in the result. *)
Definition decode (types : gmap pystr message_cls) (raw : bytes)
  : outcome message :=
  match bytes_decode raw with
  | None => Raise MessageError
  | Some raw_string =>
    match json_loads raw_string with
    | None => Raise MessageError
    | Some json_obj =>
      match json_obj with
      | PDict d =>
        let message_type := dict_get (str_ "type") d in
        match types_getitem types message_type with
        | Raise KeyError => Raise MessageError
        | Raise e => Raise e
        | Fuel => Fuel
        | Ret message_cls =>
          match to_python (schema message_cls)
                  (dict_get (str_ "entity") d) with
          | None => Raise Invalid
          | Some v => Ret {| cls := message_cls; entity := v |}
          end
        end
      | _ => Raise MessageError
      end
    end
  end.

(** [io.BufferedReader] over an [io.BytesIO]: the bytes fetched and not
    yet read, and the bytes still in the underlying object. *)
Record reader : Type := {
  buffered : bytes;
  underlying : bytes
}.

Definition DEFAULT_BUFFER_SIZE : nat := Z.to_nat 8192.

(** [peek()]: what is buffered; one fetch when nothing is. *)
Definition peek (r : reader) : bytes * reader :=
  match buffered r with
  | [] =>
    let got := take DEFAULT_BUFFER_SIZE (underlying r) in
    (got, {| buffered := got;
             underlying := drop DEFAULT_BUFFER_SIZE (underlying r) |})
  | b => (b, r)
  end.

(** [read(n)] *)
Definition read (n : nat) (r : reader) : bytes * reader :=
  if (n <=? length (buffered r))%nat
  then (take n (buffered r),
        {| buffered := drop n (buffered r); underlying := underlying r |})
  else
    let more := (n - length (buffered r))%nat in
    (buffered r ++ take more (underlying r),
     {| buffered := []; underlying := drop more (underlying r) |}).

(** [Message.decode_from_buffer]: the messages the generator yields,
    and how it ends (exhausted, or with the exception of a decode). *)
Fixpoint decode_from_buffer_loop (types : gmap pystr message_cls)
    (fuel : nat) (r : reader) : list message * outcome unit :=
  match fuel with
  | O => ([], Fuel)
  | S n =>
    let '(pk, r1) := peek r in
    let terminator := bytes_find NUL pk in
    if terminator =? -1 then ([], Ret tt)
    else
      let '(chunk, r2) := read (Z.to_nat (terminator + 1)) r1 in
      match decode types (slice_to chunk (-1)) with
      | Ret m =>
        let '(ms, o) := decode_from_buffer_loop types n r2 in (m :: ms, o)
      | Raise e => ([], Raise e)
      | Fuel => ([], Fuel)
      end
  end.

Definition decode_from_buffer (types : gmap pystr message_cls)
    (buffer_ : bytes) : list message * outcome unit :=
  decode_from_buffer_loop types (S (length buffer_))
    {| buffered := []; underlying := buffer_ |}.
End Codec.

(* --------------------------------------------------------------------- *)
(* 5. zm/server.py                                                       *)
(* --------------------------------------------------------------------- *)

Inductive level : Type := DEBUG | INFO | WARNING | ERROR.

(** What a connection does that can be observed from outside, in order.
    [Frame] marks the slice taken from the buffer in [_read_json];
    [Dispatch] marks the call of a registered handler.  A [Log] carries
    the level and the constant part of the logged text; the [repr] of
    the message that the code formats into it is left out. *)
Inductive event : Type :=
| Log (l : level) (text : string)
| Frame (raw : bytes)
| Dispatch (tag : pystr) (payload : pyval)
| Sendall (data : bytes).

(** One connection as its handler object sees it.  [transport] holds the
    segments the peer sends before it closes, in arrival order;
    [buffer] is [self.buffer]. *)
Record conn : Type := {
  transport : list bytes;
  buffer : bytes;
  trace : list event
}.

(** Python statements over a connection: state is kept when an exception
    is raised. *)
Definition M (A : Type) : Type := conn -> outcome A * conn.

#[export] Instance M_ret : MRet M := fun _ a c => (Ret a, c).
#[export] Instance M_bind : MBind M := fun _ _ k m c =>
  match m c with
  | (Ret a, c') => k a c'
  | (Raise e, c') => (Raise e, c')
  | (Fuel, c') => (Fuel, c')
  end.

Definition lift {A} (o : outcome A) : M A := fun c => (o, c).

Definition emit (e : event) : M unit := fun c =>
  (Ret tt, {| transport := transport c; buffer := buffer c;
              trace := trace c ++ [e] |}).

Definition log (l : level) (text : string) : M unit := emit (Log l text).

Definition get_buffer : M bytes := fun c => (Ret (buffer c), c).

Definition set_buffer (b : bytes) : M unit := fun c =>
  (Ret tt, {| transport := transport c; buffer := b; trace := trace c |}).

(** What [recv(n)] returns from the segments in flight, and what stays:
    at most [n] bytes of the first non-empty segment, or [b""] once the
    peer has closed. *)
Fixpoint recv_from (n : nat) (t : list bytes) : bytes * list bytes :=
  match t with
  | [] => ([], [])
  | [] :: t' => recv_from n t'
  | seg :: t' =>
    (take n seg, match drop n seg with [] => t' | rest => rest :: t' end)
  end.

(** [self.request.recv(n)] *)
Definition recv (n : nat) : M bytes := fun c =>
  let '(got, t') := recv_from n (transport c) in
  (Ret got, {| transport := t'; buffer := buffer c; trace := trace c |}).

(** [self.request.sendall(data)] *)
Definition sendall (data : pyval) : M unit :=
  match data with
  | PBytes b => emit (Sendall b)
  | _ => lift (Raise TypeError)
  end.

(** A registered handler, called with the connection handler and the
    entity: it returns ([None]) or raises. *)
Abbreviation type_handler := (pyval -> option exn).

(** [ZordzmanServer.register_handler] *)
Definition register_handler (tag : pystr) (h : type_handler)
    (type_handlers : gmap pystr type_handler)
  : outcome (gmap pystr type_handler) :=
  match type_handlers !! tag with
  | Some _ => Raise ValueError
  | None => Ret (<[tag := h]> type_handlers)
  end.

(** [k in self.server.type_handlers]; the table is keyed by strings. *)
Definition handlers_contains (type_handlers : gmap pystr type_handler)
    (k : pyval) : outcome bool :=
  if negb (hashable k) then Raise TypeError
  else
    match k with
    | PStr tag => Ret (bool_decide (is_Some (type_handlers !! tag)))
    | _ => Ret false
    end.

(** [self.server.type_handlers[k]], with the key it was found under. *)
Definition handlers_getitem (type_handlers : gmap pystr type_handler)
    (k : pyval) : outcome (pystr * type_handler) :=
  if negb (hashable k) then Raise TypeError
  else
    match k with
    | PStr tag =>
      match type_handlers !! tag with
      | Some h => Ret (tag, h)
      | None => Raise KeyError
      end
    | _ => Raise KeyError
    end.

(** The public attributes of a [dict] object: its methods.  The keys of
    a dict are not attributes of it. *)
Definition dict_attributes : list string :=
  ["clear"; "copy"; "fromkeys"; "get"; "items"; "keys"; "pop"; "popitem";
   "setdefault"; "update"; "values"]%string.

(** The text that a format field [{0.name}] inserts for a dict argument:
    [getattr(message, name)]. *)
Definition format_attribute (name : string) : outcome string :=
  if existsb (String.eqb name) dict_attributes
  then Ret ("<built-in method " ++ name ++ " of dict object>")%string
  else Raise AttributeError.

(** ["No handler registered for '{0.type}': {0.entity!r}".format(message)]
    for a dict [message]. *)
Definition format_no_handler : outcome string :=
  t ← format_attribute "type";
  e ← format_attribute "entity";
  Ret ("No handler registered for '" ++ t ++ "': " ++ e)%string.

Definition MAGIC_NUMBER : bytes := [Byte.xca; Byte.xc3; Byte.x55].

(** The size asked of [recv] in [_read_json]. *)
Definition RECV_SIZE : nat := Z.to_nat 8192.
Arguments RECV_SIZE : simpl never.
Definition PROTOCOL_VERSION : Z := 0.

(** [b[i]] on bytes, for an index in range. *)
Definition bytes_getitem (b : bytes) (i : nat) : Z :=
  Z.of_N (Byte.to_N (nth i b NUL)).

Section Server.
Context `{PyLib}.
Variable type_handlers : gmap pystr type_handler.

(** [ZordzmanHandler.send] *)
Definition send (tag payload : pyval) : M unit :=
  let message := PDict [(str_ "type", tag); (str_ "message", payload)] in
  text ← lift (json_dumps message);
  data ← lift (str_encode text);
  frame ← lift (py_add (PBytes data) (PBytes [NUL]));
  sendall frame.

(** [ZordzmanHandler._process_message] *)
Definition _process_message (message : pyval) : M unit :=
  match message with
  | PDict d =>
    bad_type ←
      (if negb (dict_contains (str_ "type") d)
       then t ← lift (dict_getitem (str_ "type") d);
            mret (negb (isinstance_str t))
       else mret false);
    if bad_type : bool then
      log ERROR "Message missing type field or type field is the wrong type"
    else if negb (dict_contains (str_ "entity") d) then
      log ERROR "Message doesn't contain an entity field"
    else
      t ← lift (dict_getitem (str_ "type") d);
      known ← lift (handlers_contains type_handlers t);
      if negb known then
        text ← lift format_no_handler;
        log WARNING text
      else
        '(tag, h) ← lift (handlers_getitem type_handlers t);
        payload ← lift (dict_getitem (str_ "entity") d);
        emit (Dispatch tag payload);;
        match h payload with
        | None => mret tt
        | Some e => lift (Raise e)
        end
  | _ => log ERROR "Message is not a dictionary"
  end.

(** The [while True] loop of [_read_json]; every turn that does not
    return has received at least one byte. *)
Fixpoint read_loop (fuel : nat) : M unit :=
  match fuel with
  | O => lift Fuel
  | S n =>
    got ← recv RECV_SIZE;
    match got with
    | [] => log DEBUG "Connection terminated by client"
    | _ =>
      old ← get_buffer;
      set_buffer (old ++ got);;
      buf ← get_buffer;
      let message_end := bytes_find NUL buf in
      if message_end =? -1 then read_loop n
      else
        let message := slice_to buf message_end in
        set_buffer (slice_from buf message_end);;
        emit (Frame message);;
        match bytes_decode message with
        | None => log ERROR "Couldn't decode message as UTF-8"
        | Some text =>
          match json_loads text with
          | None => log ERROR "Malformed JSON message"
          | Some json_object =>
            _process_message json_object;;
            read_loop n
          end
        end
    end
  end.

(** [ZordzmanHandler._read_json] *)
Definition _read_json : M unit := fun c =>
  (set_buffer [];;
   read_loop (S (length (concat (transport c))))) c.

(** [ZordzmanHandler.handler] *)
Definition handler : M unit :=
  log INFO "Connection established";;
  got ← recv 4;
  set_buffer got;;
  if (length got <? 4)%nat then
    log ERROR "Incomplete protocol identifier"
  else if negb (startswith got MAGIC_NUMBER) then
    log ERROR "Bad magic number"
  else if negb (bytes_getitem got 3 =? PROTOCOL_VERSION) then
    log ERROR "Wrong protocol version"
  else _read_json.
End Server.

(** A registered handler as line 53 calls it, [handler(self, entity)]:
    with the connection at hand it may send, log, receive and change
    [self.buffer]. *)
Abbreviation self_handler := (pyval -> M unit).

(** [k in table] for a table keyed by strings. *)
Definition table_contains {V : Type} (table : gmap pystr V) (k : pyval)
  : outcome bool :=
  if negb (hashable k) then Raise TypeError
  else
    match k with
    | PStr tag => Ret (bool_decide (is_Some (table !! tag)))
    | _ => Ret false
    end.

(** [table[k]], with the key it was found under. *)
Definition table_getitem {V : Type} (table : gmap pystr V) (k : pyval)
  : outcome (pystr * V) :=
  if negb (hashable k) then Raise TypeError
  else
    match k with
    | PStr tag =>
      match table !! tag with
      | Some h => Ret (tag, h)
      | None => Raise KeyError
      end
    | _ => Raise KeyError
    end.

Section ServerSelf.
Context `{PyLib}.
Variable type_handlers : gmap pystr self_handler.

(** [ZordzmanHandler._process_message], the handler being run on the
    connection. *)
Definition _process_message_self (message : pyval) : M unit :=
  match message with
  | PDict d =>
    bad_type ←
      (if negb (dict_contains (str_ "type") d)
       then t ← lift (dict_getitem (str_ "type") d);
            mret (negb (isinstance_str t))
       else mret false);
    if bad_type : bool then
      log ERROR "Message missing type field or type field is the wrong type"
    else if negb (dict_contains (str_ "entity") d) then
      log ERROR "Message doesn't contain an entity field"
    else
      t ← lift (dict_getitem (str_ "type") d);
      known ← lift (table_contains type_handlers t);
      if negb known then
        text ← lift format_no_handler;
        log WARNING text
      else
        '(tag, h) ← lift (table_getitem type_handlers t);
        payload ← lift (dict_getitem (str_ "entity") d);
        emit (Dispatch tag payload);;
        h payload
  | _ => log ERROR "Message is not a dictionary"
  end.

(** The [while True] loop of [_read_json] over such handlers. *)
Fixpoint read_loop_self (fuel : nat) : M unit :=
  match fuel with
  | O => lift Fuel
  | S n =>
    got ← recv RECV_SIZE;
    match got with
    | [] => log DEBUG "Connection terminated by client"
    | _ =>
      old ← get_buffer;
      set_buffer (old ++ got);;
      buf ← get_buffer;
      let message_end := bytes_find NUL buf in
      if message_end =? -1 then read_loop_self n
      else
        let message := slice_to buf message_end in
        set_buffer (slice_from buf message_end);;
        emit (Frame message);;
        match bytes_decode message with
        | None => log ERROR "Couldn't decode message as UTF-8"
        | Some text =>
          match json_loads text with
          | None => log ERROR "Malformed JSON message"
          | Some json_object =>
            _process_message_self json_object;;
            read_loop_self n
          end
        end
    end
  end.

(** [ZordzmanHandler._read_json] over such handlers. *)
Definition _read_json_self : M unit := fun c =>
  (set_buffer [];;
   read_loop_self (S (length (concat (transport c))))) c.
End ServerSelf.

(** A connection that has just been accepted, with [t] on its way. *)
Definition fresh (t : list bytes) : conn :=
  {| transport := t; buffer := []; trace := [] |}.

(** The slices taken from the buffer, in order. *)
Definition frames (tr : list event) : list bytes :=
  omap (fun e => match e with Frame raw => Some raw | _ => None end) tr.

(** The handler calls made, in order. *)
Definition dispatches (tr : list event) : list (pystr * pyval) :=
  omap (fun e => match e with Dispatch tag v => Some (tag, v) | _ => None end)
       tr.

(** The texts logged at level [l], in order. *)
Definition logged (l : level) (tr : list event) : list string :=
  omap (fun e =>
          match e, l with
          | Log DEBUG s, DEBUG | Log INFO s, INFO
          | Log WARNING s, WARNING | Log ERROR s, ERROR => Some s
          | _, _ => None
          end) tr.

(** The handshake as the protocol describes it: a state machine that
    leaves [AwaitingPreamble] for [Open] or for one of three errors. *)
Inductive gate : Type :=
| IncompletePreamble
| BadMagic
| VersionMismatch
| Open.

Definition gate_of (got : bytes) : gate :=
  match got with
  | m0 :: m1 :: m2 :: v :: _ =>
    if bool_decide ([m0; m1; m2] = MAGIC_NUMBER) then
      if bool_decide (Byte.to_N v = 0%N) then Open else VersionMismatch
    else BadMagic
  | _ => IncompletePreamble
  end.

Definition gate_error (g : gate) : string :=
  match g with
  | IncompletePreamble => "Incomplete protocol identifier"
  | BadMagic => "Bad magic number"
  | VersionMismatch => "Wrong protocol version"
  | Open => ""
  end.

(* fixtures for concrete runs *)

Definition preamble : bytes := MAGIC_NUMBER ++ [Byte.x00].
Definition accepting : type_handler := fun _ => None.
Definition failing : type_handler := fun _ => Some (HandlerError 1).

(* --------------------------------------------------------------------- *)
(* 5b. The vocabulary of the statements                                  *)
(* --------------------------------------------------------------------- *)

(** [c] after the events [evs]. *)
Definition after (c : conn) (evs : list event) : conn :=
  {| transport := transport c; buffer := buffer c; trace := trace c ++ evs |}.

(** What a handler call leaves behind. *)
Definition returned (r : option exn) : outcome unit :=
  match r with
  | None => Ret tt
  | Some e => Raise e
  end.

(** A handler that ignores the connection, as one that is given it. *)
Definition blind (h : type_handler) : self_handler :=
  fun payload => lift (returned (h payload)).

(** A handler that leaves [self.buffer] as it finds it and does not
    itself run the read loop or the dispatcher: whatever it adds to the
    trace is neither a slice nor a handler call.  It may send, log,
    receive and raise. *)
Definition polite (h : self_handler) : Prop :=
  forall payload c,
    buffer (h payload c).2 = buffer c
    /\ exists evs,
         trace (h payload c).2 = trace c ++ evs
         /\ frames evs = [] /\ dispatches evs = [].

(** A handler that answers through [self.send]. *)
Definition replying : self_handler :=
  fun payload => send (PStr (str_ "ack")) payload.

Section Vocabulary.
Context `{PyLib}.
Variable types : gmap pystr message_cls.
Variable hs : gmap pystr type_handler.

(** [raw] is not UTF-8, or not JSON, or JSON whose top level is not an
    object. *)
Definition malformed (raw : bytes) : Prop :=
  bytes_decode raw = None
  \/ exists text, bytes_decode raw = Some text
     /\ (json_loads text = None
         \/ exists v, json_loads text = Some v /\ isinstance_dict v = false).

(** [raw] is the UTF-8 JSON text of the object [d]. *)
Definition envelope (raw : bytes) (d : list (pystr * pyval)) : Prop :=
  exists text, bytes_decode raw = Some text
               /\ json_loads text = Some (PDict d).

(** The registered kind that a [type] field names, if any. *)
Definition kind_of (t : pyval) : option message_cls :=
  match t with
  | PStr tag => types !! tag
  | _ => None
  end.

(** The frame [raw] is UTF-8 JSON text of an object with an [entity]
    field [payload] and a [type] field that is a key of the handler
    table. *)
Definition routed (raw : bytes) (tag : pystr) (payload : pyval) : Prop :=
  exists text d h,
    bytes_decode raw = Some text
    /\ json_loads text = Some (PDict d)
    /\ dict_lookup (str_ "type") d = Some (PStr tag)
    /\ dict_lookup (str_ "entity") d = Some payload
    /\ hs !! tag = Some h.

(** The shape of what one connection adds to its trace: log lines and
    frames, a handler call only right after a frame that was routed to
    it. *)
Inductive served : list event -> Prop :=
| served_nil : served []
| served_log l text evs : served evs -> served (Log l text :: evs)
| served_frame raw evs : served evs -> served (Frame raw :: evs)
| served_dispatch raw tag payload evs :
    routed raw tag payload ->
    served evs ->
    served (Frame raw :: Dispatch tag payload :: evs).

End Vocabulary.

(** Every class in the registry sits under its own [type_]. *)
Definition keyed_by_type (types : gmap pystr message_cls) : Prop :=
  forall tag c, types !! tag = Some c -> type_ c = tag.

(* frames for concrete runs *)

Definition error_k : bytes := jbytes "{'type': 'error', 'entity': 'k'}".
Definition error_j : bytes := jbytes "{'type': 'error', 'entity': 'j'}".
Definition error_empty : bytes := jbytes "{'type': 'error', 'entity': ''}".
Definition chat_1 : bytes := jbytes "{'type': 'chat', 'entity': 1}".
Definition unknown_frame : bytes := jbytes "{'type': 'unknown', 'entity': {}}".
Definition no_type : bytes := jbytes "{'entity': 'k'}".
Definition no_entity : bytes := jbytes "{'type': 'error'}".

(* --------------------------------------------------------------------- *)
(* 6. Theorems                                                           *)
(* --------------------------------------------------------------------- *)

(* 6.1 bytes and the transport *)

Lemma bytes_find_lower x b : -1 <= bytes_find x b.
Proof.
  induction b as [|y b IH]; simpl; [lia|].
  destruct (Byte.eqb y x); [lia|].
  destruct (bytes_find x b =? -1); lia.
Qed.

Lemma bytes_find_absent x b : x ∉ b -> bytes_find x b = -1.
Proof.
  induction b as [|y b IH]; intros Hx; simpl; [reflexivity|].
  destruct (Byte.eqb y x) eqn:E.
  - apply Byte.byte_dec_bl in E. subst. exfalso. apply Hx. left.
  - rewrite IH; [reflexivity|]. intros Hin. apply Hx. by right.
Qed.

Lemma bytes_find_present x b : x ∈ b -> 0 <= bytes_find x b.
Proof.
  induction b as [|y b IH]; intros Hx; simpl.
  - by apply elem_of_nil in Hx.
  - destruct (Byte.eqb y x) eqn:E; [lia|].
    apply elem_of_cons in Hx as [->|Hx].
    + rewrite Byte.byte_dec_lb in E; [discriminate|reflexivity].
    + specialize (IH Hx). destruct (bytes_find x b =? -1) eqn:E'; lia.
Qed.

Lemma cut_segment (seg : bytes) (n : nat) (t : list bytes) :
  take n seg ++ concat (match drop n seg with [] => t | rest => rest :: t end)
  = seg ++ concat t
  /\ (length (concat (match drop n seg with [] => t | rest => rest :: t end))
      + length (take n seg) = length seg + length (concat t))%nat.
Proof.
  pose proof (take_drop n seg) as Htd.
  destruct (drop n seg) as [|x rest] eqn:E; simpl.
  - rewrite app_nil_r in Htd. rewrite Htd. split; [done | lia].
  - split.
    + rewrite <- Htd at 2. by rewrite <- app_assoc.
    + apply (f_equal length) in Htd. rewrite length_app in Htd.
      rewrite length_app. simpl in *. lia.
Qed.

(** [recv] hands over a prefix of what is in flight; an empty result
    means that nothing is left, and a non-empty one makes progress. *)
Lemma recv_from_concat n t :
  (0 < n)%nat ->
  (recv_from n t).1 ++ concat (recv_from n t).2 = concat t
  /\ ((recv_from n t).1 = [] -> (recv_from n t).2 = [] /\ concat t = [])
  /\ ((recv_from n t).1 <> [] ->
      (length (concat (recv_from n t).2) < length (concat t))%nat).
Proof.
  intros Hn. induction t as [|seg t IH].
  - simpl. split; [reflexivity|]. split; [done|]. intros Hne. by destruct Hne.
  - destruct seg as [|b seg]; [exact IH|].
    destruct n as [|n]; [lia|].
    destruct (cut_segment seg n t) as [Hcat Hlen].
    cbn [recv_from take drop fst snd concat app].
    split; [|split].
    + cbn [app]. f_equal. exact Hcat.
    + discriminate.
    + intros _. cbn [length]. rewrite length_app. lia.
Qed.

Lemma RECV_SIZE_pos : (0 < RECV_SIZE)%nat.
Proof. unfold RECV_SIZE. lia. Qed.

Section Reading.
Context `{PyLib}.
Variable hs : gmap pystr type_handler.

(* 6.2 one turn of the read loop *)

Lemma read_loop_step n c :
  read_loop hs (S n) c =
  let got := (recv_from RECV_SIZE (transport c)).1 in
  let t' := (recv_from RECV_SIZE (transport c)).2 in
  match got with
  | [] =>
    (Ret tt, {| transport := t'; buffer := buffer c;
                trace := trace c
                         ++ [Log DEBUG "Connection terminated by client"] |})
  | _ =>
    let buf := buffer c ++ got in
    let i := bytes_find NUL buf in
    if i =? -1 then
      read_loop hs n {| transport := t'; buffer := buf; trace := trace c |}
    else
      let c1 := {| transport := t'; buffer := slice_from buf i;
                   trace := trace c ++ [Frame (slice_to buf i)] |} in
      match bytes_decode (slice_to buf i) with
      | None =>
        (Ret tt, {| transport := t'; buffer := slice_from buf i;
                    trace := trace c1
                             ++ [Log ERROR "Couldn't decode message as UTF-8"] |})
      | Some text =>
        match json_loads text with
        | None =>
          (Ret tt, {| transport := t'; buffer := slice_from buf i;
                      trace := trace c1
                               ++ [Log ERROR "Malformed JSON message"] |})
        | Some json_object =>
          match _process_message hs json_object c1 with
          | (Ret _, c2) => read_loop hs n c2
          | (Raise e, c2) => (Raise e, c2)
          | (Fuel, c2) => (Fuel, c2)
          end
        end
      end
  end.
Proof.
  cbn [read_loop]. unfold mbind, M_bind, recv.
  destruct (recv_from RECV_SIZE (transport c)) as [got t'].
  cbn [fst snd]. destruct got as [|b got]; [reflexivity|].
  cbn -[bytes_find slice_to slice_from "=?" _process_message read_loop].
  destruct (bytes_find NUL (buffer c ++ b :: got) =? -1); [reflexivity|].
  cbn -[bytes_find slice_to slice_from _process_message read_loop].
  destruct (bytes_decode _); [|reflexivity].
  destruct (json_loads _); reflexivity.
Qed.

(* 6.3 a stream without terminator *)

Lemma read_loop_no_terminator fuel : forall t buf tr,
  NUL ∉ buf ++ concat t ->
  (length (concat t) < fuel)%nat ->
  read_loop hs fuel {| transport := t; buffer := buf; trace := tr |}
  = (Ret tt,
     {| transport := []; buffer := buf ++ concat t;
        trace := tr ++ [Log DEBUG "Connection terminated by client"] |}).
Proof.
  induction fuel as [|fuel IH]; intros t buf tr Hnul Hfuel; [lia|].
  rewrite read_loop_step. cbn [transport buffer trace].
  destruct (recv_from_concat RECV_SIZE t RECV_SIZE_pos)
    as (Hcat & Hnil & Hlt).
  destruct (recv_from RECV_SIZE t) as [got t'].
  cbn [fst snd] in *. destruct got as [|b got].
  - destruct (Hnil eq_refl) as [-> ->]. by rewrite app_nil_r.
  - assert (NUL ∉ (buf ++ b :: got) ++ concat t') as Hnul'.
    { by rewrite <- app_assoc, Hcat. }
    rewrite bytes_find_absent.
    2:{ intros Hin. apply Hnul'. apply elem_of_app. by left. }
    cbn [Z.eqb Pos.eqb]. rewrite IH.
    + by rewrite <- app_assoc, Hcat.
    + exact Hnul'.
    + specialize (Hlt ltac:(discriminate)). lia.
Qed.

Lemma read_json_fresh t :
  _read_json hs (fresh t)
  = read_loop hs (S (length (concat t))) (fresh t).
Proof. reflexivity. Qed.

(** C3.  A byte string without [0x00] delivered in two segments, cut
    anywhere, makes the frame reader extract the same sequence of frames
    as the string delivered in one segment; both runs return. *)
Theorem chunk_boundary_independence (s1 s2 : bytes) :
  NUL ∉ s1 ++ s2 ->
  (_read_json hs (fresh [s1; s2])).1 = Ret tt
  /\ (_read_json hs (fresh [s1 ++ s2])).1 = Ret tt
  /\ frames (trace (_read_json hs (fresh [s1; s2])).2)
     = frames (trace (_read_json hs (fresh [s1 ++ s2])).2).
Proof.
  intros Hnul. rewrite !read_json_fresh. unfold fresh.
  rewrite !read_loop_no_terminator; cbn [concat app];
    rewrite ?app_nil_r; try done; lia.
Qed.

(* 6.4 the handshake *)

Lemma startswith_magic m0 m1 m2 rest :
  startswith (m0 :: m1 :: m2 :: rest) MAGIC_NUMBER
  = bool_decide ([m0; m1; m2] = MAGIC_NUMBER).
Proof.
  unfold MAGIC_NUMBER. cbn [startswith].
  destruct (Byte.eqb Byte.xca m0) eqn:E0;
    [apply Byte.byte_dec_bl in E0 | apply Byte.eqb_false in E0];
  (destruct (Byte.eqb Byte.xc3 m1) eqn:E1;
    [apply Byte.byte_dec_bl in E1 | apply Byte.eqb_false in E1]);
  (destruct (Byte.eqb Byte.x55 m2) eqn:E2;
    [apply Byte.byte_dec_bl in E2 | apply Byte.eqb_false in E2]);
  cbn [andb]; symmetry;
  first [ apply bool_decide_eq_true_2; congruence
        | apply bool_decide_eq_false_2; congruence ].
Qed.

(** C9.  [handler] runs the handshake once, on the result of a single
    [recv(4)]: with fewer than four bytes, a wrong magic number or a
    wrong version byte it logs the error and returns, having read
    nothing more; otherwise it hands the rest of the connection to
    [_read_json]. *)
Theorem handshake_gate (c : conn) :
  let got := (recv_from 4 (transport c)).1 in
  let c1 := {| transport := (recv_from 4 (transport c)).2;
               buffer := got;
               trace := trace c ++ [Log INFO "Connection established"] |} in
  handler hs c =
  match gate_of got with
  | Open => _read_json hs c1
  | g =>
    (Ret tt, {| transport := transport c1; buffer := buffer c1;
                trace := trace c1 ++ [Log ERROR (gate_error g)] |})
  end.
Proof.
  unfold handler, mbind, M_bind, log, emit, recv, set_buffer.
  cbn [transport buffer trace].
  destruct (recv_from 4 (transport c)) as [got t'].
  cbn [fst snd transport buffer trace].
  destruct got as [|m0 [|m1 [|m2 [|v rest]]]]; try reflexivity.
  change (length (m0 :: m1 :: m2 :: v :: rest) <? 4)%nat with false.
  cbn match. rewrite startswith_magic. cbn [gate_of].
  destruct (bool_decide ([m0; m1; m2] = MAGIC_NUMBER)); [|reflexivity].
  cbn [negb]. unfold bytes_getitem, PROTOCOL_VERSION. cbn [nth].
  destruct (bool_decide (Byte.to_N v = 0%N)) eqn:Ev.
  - apply bool_decide_eq_true_1 in Ev. rewrite Ev. reflexivity.
  - apply bool_decide_eq_false_1 in Ev.
    destruct (Z.of_N (Byte.to_N v) =? 0) eqn:Ez; [|reflexivity].
    exfalso. apply Ev. lia.
Qed.
End Reading.

(** C3 on a concrete string: ['{"a": 1}'] cut after its third byte. *)
Lemma chunk_boundary_independence_witness :
  (_read_json ∅ (fresh [jbytes "{'a"; jbytes "': 1}"])).1 = Ret tt
  /\ (_read_json ∅ (fresh [jbytes "{'a" ++ jbytes "': 1}"])).1 = Ret tt
  /\ frames (trace (_read_json ∅ (fresh [jbytes "{'a"; jbytes "': 1}"])).2)
     = frames (trace (_read_json ∅
                        (fresh [jbytes "{'a" ++ jbytes "': 1}"])).2).
Proof.
  apply (chunk_boundary_independence ∅ (jbytes "{'a") (jbytes "': 1}")).
  vm_compute. intros Hin.
  repeat (apply elem_of_cons in Hin as [Hin|Hin]; [discriminate Hin|]).
  by apply elem_of_nil in Hin.
Defined.

(* 6.5 Message.encode and ZordzmanHandler.send *)

Section Encoding.
Context `{PyLib}.

Lemma bytes_plus_str (data : bytes) (s : pystr) :
  py_add (PBytes data) (PStr s) = Raise TypeError.
Proof. reflexivity. Qed.

(** C10, amended.  [Message.encode] never returns.  When the schema's
    [from_python] rejects the entity it raises [formencode.Invalid];
    when the entity converts and serializes, the bytes are added to the
    str ["\x00"] and that raises [TypeError].
    [ZordzmanHandler.send] adds the bytes [b"\x00"] instead and hands
    the terminated frame to [sendall]. *)
Theorem encode_raises_TypeError (m : message) :
  (forall v, encode m <> Ret v)
  /\ (from_python (schema (cls m)) (entity m) = None ->
      encode m = Raise Invalid)
  /\ (forall wire text data,
        from_python (schema (cls m)) (entity m) = Some wire ->
        json_dumps (PDict [(str_ "type", PStr (type_ (cls m)));
                           (str_ "entity", wire)]) = Ret text ->
        str_encode text = Ret data ->
        encode m = Raise TypeError)
  /\ (forall tag payload text data c,
        json_dumps (PDict [(str_ "type", tag); (str_ "message", payload)])
        = Ret text ->
        str_encode text = Ret data ->
        send tag payload c
        = (Ret tt, {| transport := transport c; buffer := buffer c;
                      trace := trace c ++ [Sendall (data ++ [NUL])] |})).
Proof.
  split; [|split; [|split]].
  - intros v. unfold encode.
    destruct (from_python _ _); [|discriminate].
    destruct (json_dumps _); cbn; try discriminate.
    destruct (str_encode _); cbn; discriminate.
  - intros Hw. unfold encode. by rewrite Hw.
  - intros wire text data Hw Ht Hd. unfold encode.
    rewrite Hw, Ht. cbn. rewrite Hd. reflexivity.
  - intros tag payload text data c Ht Hd.
    unfold send, mbind, M_bind, lift. rewrite Ht, Hd. reflexivity.
Qed.
End Encoding.

(** C10 on [StrictMessage("")], on [ErrorMessage("k")] and on
    [send("error", "k")]. *)
Lemma encode_raises_TypeError_witness :
  encode {| cls := StrictMessage; entity := PStr [] |} = Raise Invalid
  /\ encode {| cls := ErrorMessage; entity := PStr (str_ "k") |}
     = Raise TypeError
  /\ (send (PStr (str_ "error")) (PStr (str_ "k")) (fresh [])).2
     = {| transport := []; buffer := [];
          trace := [Sendall (jbytes "{'type': 'error', 'message': 'k'}"
                             ++ [NUL])] |}.
Proof.
  pose proof (encode_raises_TypeError
                {| cls := ErrorMessage; entity := PStr (str_ "k") |})
    as (_ & _ & Henc & Hsend).
  pose proof (encode_raises_TypeError
                {| cls := StrictMessage; entity := PStr [] |})
    as (_ & Hinv & _).
  split; [|split].
  - apply Hinv. reflexivity.
  - eapply Henc; reflexivity.
  - erewrite Hsend; reflexivity.
Defined.

(** C10 as stated fails on a registered kind whose schema validates in
    both directions: for [StrictMessage("")], [from_python] rejects the
    empty entity and [encode] raises [formencode.Invalid], not
    [TypeError]. *)
Lemma encode_rejected_entity_raises_Invalid :
  MessageMeta_new "StrictMessage" (Some (str_ "strict"))
    (Some NotEmptyStrict) module_types
  = Ret (<[str_ "strict" := StrictMessage]> module_types)
  /\ from_python (schema StrictMessage) (PStr []) = None
  /\ encode {| cls := StrictMessage; entity := PStr [] |} = Raise Invalid
  /\ encode {| cls := StrictMessage; entity := PStr [] |} <> Raise TypeError.
Proof.
  repeat split; try reflexivity. vm_compute. discriminate.
Qed.

(** C1.  [ErrorMessage("k").encode()] raises [TypeError], so there are no
    bytes to decode; the frame that was meant, without its terminator,
    does decode to [ErrorMessage("k")]. *)
Theorem encode_error_k_raises :
  from_python NotEmpty (PStr (str_ "k")) = Some (PStr (str_ "k"))
  /\ to_python NotEmpty (PStr (str_ "k")) = Some (PStr (str_ "k"))
  /\ encode {| cls := ErrorMessage; entity := PStr (str_ "k") |}
     = Raise TypeError
  /\ decode module_types (jbytes "{'type': 'error', 'entity': 'k'}")
     = Ret {| cls := ErrorMessage; entity := PStr (str_ "k") |}.
Proof. repeat split; vm_compute; reflexivity. Qed.

(* 6.6 Message.decode *)

Section Decoding.
Context `{PyLib}.
Variable types : gmap pystr message_cls.

Lemma types_getitem_kind t :
  hashable t = true ->
  types_getitem types t
  = match kind_of types t with Some k => Ret k | None => Raise KeyError end.
Proof.
  intros Hh. unfold types_getitem, kind_of. rewrite Hh. cbn [negb].
  destruct t; reflexivity.
Qed.

Lemma kind_of_hashable t k : kind_of types t = Some k -> hashable t = true.
Proof. destruct t; cbn; congruence. Qed.

(** C5, amended.  [decode] raises [MessageError] for bytes that are not
    UTF-8, not JSON or not a JSON object, and for an object whose [type]
    value (a missing field reads as [None]) is hashable and names no
    registered kind; these are the only ways it raises [MessageError].
    When [type] names a registered kind the entity goes through the
    kind's validator: a rejection propagates as [formencode.Invalid],
    and an accepted value comes back in a message of that kind. *)
Theorem decode_outcomes (raw : bytes) :
  (malformed raw -> decode types raw = Raise MessageError)
  /\ (forall d, envelope raw d ->
       let t := dict_get (str_ "type") d in
       (hashable t = true -> kind_of types t = None ->
        decode types raw = Raise MessageError)
       /\ (forall k, kind_of types t = Some k ->
            decode types raw =
            match to_python (schema k) (dict_get (str_ "entity") d) with
            | None => Raise Invalid
            | Some v => Ret {| cls := k; entity := v |}
            end))
  /\ (decode types raw = Raise MessageError ->
      malformed raw
      \/ exists d, envelope raw d
                   /\ kind_of types (dict_get (str_ "type") d) = None).
Proof.
  split; [|split].
  - intros [Hb | (text & Hb & [Hj | (v & Hj & Hv)])]; unfold decode.
    + by rewrite Hb.
    + by rewrite Hb, Hj.
    + rewrite Hb, Hj. by destruct v.
  - intros d (text & Hb & Hj) t. split.
    + intros Hh Hk. unfold decode. rewrite Hb, Hj.
      fold t. rewrite (types_getitem_kind t Hh). rewrite Hk. reflexivity.
    + intros k Hk. unfold decode. rewrite Hb, Hj. fold t.
      rewrite (types_getitem_kind t (kind_of_hashable t k Hk)). rewrite Hk.
      reflexivity.
  - unfold decode. intros Hdec.
    destruct (bytes_decode raw) as [text|] eqn:Hb; [|left; by left].
    destruct (json_loads text) as [v|] eqn:Hj;
      [|left; right; exists text; eauto].
    destruct v as [ | ? | ? | ? | ? | ? | ? | d];
      try (left; right; exists text; split; [done|right]; eauto; fail).
    right. exists d. split; [by exists text|].
    set (t := dict_get (str_ "type") d) in *.
    destruct (hashable t) eqn:Hh.
    + rewrite (types_getitem_kind t Hh) in Hdec.
      destruct (kind_of types t) as [k|] eqn:Hk; [|reflexivity].
      destruct (to_python _ _); discriminate.
    + destruct t; cbn in Hh; try discriminate; reflexivity.
Qed.
End Decoding.

(** C5 on [b"[]"], on an [error] frame and on an unknown type. *)
Lemma decode_outcomes_witness :
  decode module_types (jbytes "[]") = Raise MessageError
  /\ decode module_types (jbytes "{'type': 'nope', 'entity': 1}")
     = Raise MessageError
  /\ decode module_types (jbytes "{'type': 'error', 'entity': 'k'}")
     = Ret {| cls := ErrorMessage; entity := PStr (str_ "k") |}.
Proof.
  split; [|split].
  - apply (decode_outcomes module_types (jbytes "[]")).
    right. exists (str_ "[]"). split; [reflexivity|].
    right. exists (PList []). split; reflexivity.
  - refine (proj1 (proj1 (proj2 (decode_outcomes module_types _))
                     [(str_ "type", PStr (str_ "nope"));
                      (str_ "entity", PInt 1)] _) _ _).
    + exists (jstr "{'type': 'nope', 'entity': 1}"). split; reflexivity.
    + reflexivity.
    + reflexivity.
  - refine (proj2 (proj1 (proj2 (decode_outcomes module_types _))
                     [(str_ "type", PStr (str_ "error"));
                      (str_ "entity", PStr (str_ "k"))] _) ErrorMessage _).
    + exists (jstr "{'type': 'error', 'entity': 'k'}"). split; reflexivity.
    + reflexivity.
Defined.

(** C5 as stated fails on [b'{"type": "error", "entity": ""}']: the tag
    is registered, the validator rejects the empty entity, and what
    [decode] raises is [formencode.Invalid], not [MessageError]. *)
Lemma decode_rejected_entity_raises_Invalid :
  module_types !! str_ "error" = Some ErrorMessage
  /\ to_python (schema ErrorMessage) (PStr []) = None
  /\ decode module_types (jbytes "{'type': 'error', 'entity': ''}")
     = Raise Invalid
  /\ decode module_types (jbytes "{'type': 'error', 'entity': ''}")
     <> Raise MessageError.
Proof. repeat split; try (vm_compute; reflexivity). vm_compute. discriminate. Qed.

(* 6.7 _process_message and the handler table *)

Section Dispatching.
Context `{PyLib}.
Variable hs : gmap pystr type_handler.

Lemma format_no_handler_raises : format_no_handler = Raise AttributeError.
Proof. reflexivity. Qed.

Lemma process_message_dispatch d tag payload h c :
  dict_lookup (str_ "type") d = Some (PStr tag) ->
  dict_lookup (str_ "entity") d = Some payload ->
  hs !! tag = Some h ->
  _process_message hs (PDict d) c
  = (returned (h payload), after c [Dispatch tag payload]).
Proof.
  intros Ht He Hh.
  unfold _process_message, dict_contains, dict_getitem, handlers_contains,
    handlers_getitem.
  rewrite Ht, He. cbn [negb hashable].
  unfold mbind, M_bind, mret, M_ret, lift. cbn [negb hashable].
  rewrite Hh. rewrite bool_decide_eq_true_2 by eauto. cbn [negb].
  unfold emit, after. destruct (h payload); reflexivity.
Qed.

(** [_process_message] raises before it has done anything, or logs one
    line and returns, or calls the handler found under the [type]. *)
Lemma process_message_cases msg c :
  (exists e, _process_message hs msg c = (Raise e, c))
  \/ (exists l text, _process_message hs msg c = (Ret tt, after c [Log l text]))
  \/ (exists d tag payload h,
        msg = PDict d
        /\ dict_lookup (str_ "type") d = Some (PStr tag)
        /\ dict_lookup (str_ "entity") d = Some payload
        /\ hs !! tag = Some h
        /\ _process_message hs msg c
           = (returned (h payload), after c [Dispatch tag payload])).
Proof.
  destruct msg as [ | ? | ? | ? | ? | ? | ? | d];
    try (right; left; eexists _, _; reflexivity).
  destruct (dict_lookup (str_ "type") d) as [t|] eqn:Ht.
  2:{ left. exists KeyError.
      unfold _process_message, dict_contains, dict_getitem.
      rewrite Ht. reflexivity. }
  destruct (dict_lookup (str_ "entity") d) as [payload|] eqn:He.
  2:{ right; left. eexists _, _.
      unfold _process_message, dict_contains, dict_getitem.
      rewrite Ht, He. reflexivity. }
  assert (forall k : outcome bool,
    (k = Ret false \/ k = Raise TypeError) ->
    handlers_contains hs t = k ->
    exists e, _process_message hs (PDict d) c = (Raise e, c)) as Hraise.
  { intros k Hk Hc.
    unfold _process_message, dict_contains, dict_getitem.
    rewrite Ht, He. cbn [negb].
    unfold mbind, M_bind, mret, M_ret, lift. rewrite Hc.
    destruct Hk as [-> | ->]; eexists; reflexivity. }
  destruct t as [ | ? | ? | ? | tag | ? | ? | ?];
    try (left; eapply Hraise; [|reflexivity]; auto; fail).
  destruct (hs !! tag) as [h|] eqn:Hh.
  - right; right. exists d, tag, payload, h.
    repeat (split; [done|]). by apply process_message_dispatch.
  - left. apply (Hraise (Ret false)); [auto|].
    unfold handlers_contains. cbn [negb hashable]. rewrite Hh.
    rewrite bool_decide_eq_false_2; [done|]. by intros [? ?].
Qed.

Lemma served_app evs evs' :
  served hs evs -> served hs evs' -> served hs (evs ++ evs').
Proof.
  induction 1 as [ | l text evs _ IH | raw evs _ IH
                 | raw tag payload evs Hr _ IH ]; intros Hs; cbn.
  - exact Hs.
  - apply served_log, IH, Hs.
  - apply served_frame, IH, Hs.
  - apply served_dispatch; [exact Hr | apply IH, Hs].
Qed.

Lemma read_loop_served fuel : forall c,
  exists evs, trace (read_loop hs fuel c).2 = trace c ++ evs /\ served hs evs.
Proof.
  induction fuel as [|fuel IH]; intros c.
  { exists []. cbn. split; [by rewrite app_nil_r | constructor]. }
  rewrite read_loop_step.
  destruct (recv_from RECV_SIZE (transport c)) as [got t'].
  cbn [fst snd]. destruct got as [|b got].
  { eexists. split; [reflexivity | repeat constructor]. }
  cbv zeta.
  set (buf := buffer c ++ b :: got).
  set (i := bytes_find NUL buf).
  destruct (i =? -1).
  { destruct (IH {| transport := t'; buffer := buf; trace := trace c |})
      as (evs & Hevs & Hs). by exists evs. }
  set (raw := slice_to buf i).
  destruct (bytes_decode raw) as [text|] eqn:Hb.
  2:{ exists [Frame raw; Log ERROR "Couldn't decode message as UTF-8"].
      cbn. split; [by rewrite <- app_assoc | repeat constructor]. }
  destruct (json_loads text) as [msg|] eqn:Hj.
  2:{ exists [Frame raw; Log ERROR "Malformed JSON message"].
      cbn. split; [by rewrite <- app_assoc | repeat constructor]. }
  set (c1 := {| transport := t'; buffer := slice_from buf i;
                trace := trace c ++ [Frame raw] |}).
  assert (forall o evs,
    served hs (Frame raw :: evs) ->
    _process_message hs msg c1 = (o, after c1 evs) ->
    exists evs',
      trace (match _process_message hs msg c1 with
             | (Ret _, c2) => read_loop hs fuel c2
             | (Raise e, c2) => (Raise e, c2)
             | (Fuel, c2) => (Fuel, c2)
             end).2 = trace c ++ evs' /\ served hs evs') as Hgo.
  { intros o evs Hs ->. destruct o as [[]|e|].
    - destruct (IH (after c1 evs)) as (evs' & -> & Hs').
      exists ((Frame raw :: evs) ++ evs'). cbn.
      split; [by rewrite <- !app_assoc | by apply (served_app (_ :: _))].
    - exists (Frame raw :: evs). cbn. split; [by rewrite <- app_assoc|done].
    - exists (Frame raw :: evs). cbn. split; [by rewrite <- app_assoc|done]. }
  destruct (process_message_cases msg c1)
    as [(e & He) | [(l & s & Hl) | (d & tag & payload & h & -> & Ht & Hp & Hh & Hd)]].
  - apply (Hgo (Raise e) []); [repeat constructor|].
    rewrite He. unfold after. by rewrite app_nil_r.
  - apply (Hgo (Ret tt) [Log l s]); [repeat constructor | exact Hl].
  - apply (Hgo (returned (h payload)) [Dispatch tag payload]); [|exact Hd].
    apply served_dispatch; [|constructor].
    by exists text, d, h.
Qed.

(** The read loop always ends: the fuel that [_read_json] starts it
    with is never used up. *)
Lemma read_loop_total fuel : forall c,
  (length (concat (transport c)) < fuel)%nat ->
  (read_loop hs fuel c).1 <> Fuel.
Proof.
  induction fuel as [|fuel IH]; intros c Hfuel; [lia|].
  rewrite read_loop_step.
  destruct (recv_from_concat RECV_SIZE (transport c) RECV_SIZE_pos)
    as (_ & _ & Hlt).
  destruct (recv_from RECV_SIZE (transport c)) as [got t'].
  cbn [fst snd] in *. destruct got as [|b got]; [discriminate|].
  specialize (Hlt ltac:(discriminate)). cbv zeta.
  destruct (_ =? -1); [apply IH; cbn; lia|].
  destruct (bytes_decode _); [|discriminate].
  destruct (json_loads _) as [msg|]; [|discriminate].
  match goal with |- context [_process_message hs msg ?c1] =>
    destruct (process_message_cases msg c1)
      as [(e & ->) | [(lv & txt & ->)
                     | (d & tag & payload & h & _ & _ & _ & _ & ->)]]
  end.
  - discriminate.
  - apply IH. cbn. lia.
  - destruct (h payload); cbn [returned]; [discriminate|].
    apply IH. cbn. lia.
Qed.

Lemma read_json_total c : (_read_json hs c).1 <> Fuel.
Proof.
  unfold _read_json, mbind, M_bind, set_buffer.
  apply read_loop_total. cbn. lia.
Qed.

Lemma served_dispatch_inv evs tag payload :
  served hs evs ->
  Dispatch tag payload ∈ evs ->
  exists raw pre post,
    evs = pre ++ Frame raw :: Dispatch tag payload :: post
    /\ routed hs raw tag payload.
Proof.
  induction 1 as [ | l text evs _ IH | raw evs _ IH
                 | raw tag' payload' evs Hr _ IH ]; intros Hin.
  - by apply elem_of_nil in Hin.
  - apply elem_of_cons in Hin as [Hin|Hin]; [discriminate|].
    destruct (IH Hin) as (raw & pre & post & -> & Hr).
    by exists raw, (Log l text :: pre), post.
  - apply elem_of_cons in Hin as [Hin|Hin]; [discriminate|].
    destruct (IH Hin) as (raw' & pre & post & -> & Hr).
    by exists raw', (Frame raw :: pre), post.
  - apply elem_of_cons in Hin as [Hin|Hin]; [discriminate|].
    apply elem_of_cons in Hin as [Hin|Hin].
    + injection Hin as -> ->. by exists raw, [], evs.
    + destruct (IH Hin) as (raw' & pre & post & -> & Hr').
      by exists raw', (Frame raw :: Dispatch tag' payload' :: pre), post.
Qed.

(** C2, amended.  On a connection read by [_read_json], a handler is
    called with a payload only right after a frame has been taken from
    the buffer that is UTF-8 JSON text of an object with an [entity]
    field, the payload, and a [type] field that is a key of the
    server's handler table.  Neither the registry of message kinds nor
    a validator takes part. *)
Theorem dispatch_only_through_handler_table (t : list bytes) tag payload :
  Dispatch tag payload ∈ trace (_read_json hs (fresh t)).2 ->
  exists raw pre post,
    trace (_read_json hs (fresh t)).2
    = pre ++ Frame raw :: Dispatch tag payload :: post
    /\ routed hs raw tag payload.
Proof.
  rewrite read_json_fresh.
  destruct (read_loop_served (S (length (concat t))) (fresh t))
    as (evs & -> & Hs).
  cbn [fresh trace app]. by apply served_dispatch_inv.
Qed.

(** C7, amended.  When the handler registered for a message's type
    raises, nothing catches it: [_process_message] raises the same
    exception right after the call, and the read loop stops there with
    that exception, nothing logged, the bytes that follow the frame
    left unread. *)
Theorem handler_exception_propagates d tag payload h e :
  dict_lookup (str_ "type") d = Some (PStr tag) ->
  dict_lookup (str_ "entity") d = Some payload ->
  hs !! tag = Some h ->
  h payload = Some e ->
  (forall c,
     _process_message hs (PDict d) c
     = (Raise e, after c [Dispatch tag payload]))
  /\ (forall n c text,
       let got := (recv_from RECV_SIZE (transport c)).1 in
       let buf := buffer c ++ got in
       let i := bytes_find NUL buf in
       got <> [] ->
       i <> -1 ->
       bytes_decode (slice_to buf i) = Some text ->
       json_loads text = Some (PDict d) ->
       read_loop hs (S n) c
       = (Raise e,
          {| transport := (recv_from RECV_SIZE (transport c)).2;
             buffer := slice_from buf i;
             trace := trace c
                      ++ [Frame (slice_to buf i); Dispatch tag payload] |})).
Proof.
  intros Ht Hp Hh He.
  assert (forall c,
    _process_message hs (PDict d) c
    = (Raise e, after c [Dispatch tag payload])) as Hproc.
  { intros c. rewrite (process_message_dispatch d tag payload h c Ht Hp Hh).
    by rewrite He. }
  split; [exact Hproc|].
  intros n c text got buf i Hgot Hi Hb Hj.
  rewrite read_loop_step. fold got. cbv zeta. fold buf. fold i.
  destruct got as [|b got']; [done|].
  apply Z.eqb_neq in Hi. rewrite Hi, Hb, Hj, Hproc.
  unfold after. cbn [transport buffer trace]. by rewrite <- app_assoc.
Qed.
End Dispatching.

(* 6.8 concrete connections *)

(** C2 as stated fails: with handlers registered for ["error"] and
    ["chat"], the frame [{"type": "error", "entity": ""}], whose entity
    the validator of [ErrorMessage] rejects, reaches the handler, and so
    does a frame of type ["chat"], which is no registered message kind. *)
Lemma unvalidated_frames_dispatched :
  let hs : gmap pystr type_handler :=
    {[ str_ "error" := accepting; str_ "chat" := accepting ]} in
  dispatches (trace (handler hs (fresh [preamble; error_empty ++ [NUL]])).2)
  = [(str_ "error", PStr [])]
  /\ decode module_types error_empty = Raise Invalid
  /\ dispatches (trace (handler hs (fresh [preamble; chat_1 ++ [NUL]])).2)
     = [(str_ "chat", PInt 1)]
  /\ module_types !! str_ "chat" = None
  /\ decode module_types chat_1 = Raise MessageError.
Proof. repeat split; vm_compute; reflexivity. Qed.

(** C2 on one [error] frame after the preamble. *)
Lemma dispatch_only_through_handler_table_witness :
  exists raw pre post,
    trace (_read_json {[ str_ "error" := accepting ]}
             (fresh [error_k ++ [NUL]])).2
    = pre ++ Frame raw :: Dispatch (str_ "error") (PStr (str_ "k")) :: post
    /\ routed {[ str_ "error" := accepting ]} raw (str_ "error")
         (PStr (str_ "k")).
Proof.
  apply (dispatch_only_through_handler_table
           {[ str_ "error" := accepting ]} [error_k ++ [NUL]]).
  vm_compute. apply list_elem_of_further, list_elem_of_here.
Defined.

(** C7 as stated fails: with a handler for ["error"] that raises, the
    exception leaves [handler] uncaught, no error is logged, and the
    second frame is never read. *)
Lemma handler_exception_escapes :
  let hs : gmap pystr type_handler := {[ str_ "error" := failing ]} in
  let r := handler hs (fresh [preamble; error_k ++ [NUL]; error_j ++ [NUL]]) in
  r.1 = Raise (HandlerError 1)
  /\ r.1 <> Ret tt
  /\ logged ERROR (trace r.2) = []
  /\ dispatches (trace r.2) = [(str_ "error", PStr (str_ "k"))]
  /\ transport r.2 = [error_j ++ [NUL]].
Proof.
  repeat split; try (vm_compute; reflexivity). vm_compute. discriminate.
Qed.

(** C7 on a raising handler for ["error"] and two [error] frames. *)
Lemma handler_exception_propagates_witness :
  let hs : gmap pystr type_handler := {[ str_ "error" := failing ]} in
  _process_message hs
    (PDict [(str_ "type", PStr (str_ "error"));
            (str_ "entity", PStr (str_ "k"))]) (fresh [])
  = (Raise (HandlerError 1),
     after (fresh []) [Dispatch (str_ "error") (PStr (str_ "k"))])
  /\ (read_loop hs 1 (fresh [error_k ++ [NUL]; error_j ++ [NUL]])).1
     = Raise (HandlerError 1)
  /\ transport (read_loop hs 1 (fresh [error_k ++ [NUL]; error_j ++ [NUL]])).2
     = [error_j ++ [NUL]].
Proof.
  intros hs.
  pose proof (handler_exception_propagates hs
                [(str_ "type", PStr (str_ "error"));
                 (str_ "entity", PStr (str_ "k"))]
                (str_ "error") (PStr (str_ "k")) failing (HandlerError 1)
                eq_refl eq_refl eq_refl eq_refl) as [Hproc Hloop].
  split; [apply Hproc|].
  specialize (Hloop 0%nat (fresh [error_k ++ [NUL]; error_j ++ [NUL]])
                (jstr "{'type': 'error', 'entity': 'k'}")).
  cbv zeta in Hloop. rewrite Hloop.
  - split; vm_compute; reflexivity.
  - vm_compute. discriminate.
  - vm_compute. discriminate.
  - vm_compute. reflexivity.
  - vm_compute. reflexivity.
Defined.

(** C4.  Two frames in one segment: [_read_json] takes one slice and
    leaves the terminator at the head of the buffer; two frames in two
    segments: the second slice is empty and ends the connection.
    [decode_from_buffer] yields both messages from the same bytes. *)
Theorem read_json_keeps_terminator :
  let hs : gmap pystr type_handler := {[ str_ "error" := accepting ]} in
  let one := _read_json hs (fresh [error_k ++ [NUL] ++ error_j ++ [NUL]]) in
  let two := _read_json hs (fresh [error_k ++ [NUL]; error_j ++ [NUL]]) in
  frames (trace one.2) = [error_k]
  /\ buffer one.2 = [NUL] ++ error_j ++ [NUL]
  /\ frames (trace two.2) = [error_k; []]
  /\ dispatches (trace two.2) = [(str_ "error", PStr (str_ "k"))]
  /\ logged ERROR (trace two.2) = ["Malformed JSON message"%string]
  /\ decode_from_buffer module_types (error_k ++ [NUL] ++ error_j ++ [NUL])
     = ([ {| cls := ErrorMessage; entity := PStr (str_ "k") |};
          {| cls := ErrorMessage; entity := PStr (str_ "j") |} ], Ret tt).
Proof. repeat split; vm_compute; reflexivity. Qed.

(** C6.  A frame of type ["unknown"] with no handler for it: formatting
    the warning raises [AttributeError], which leaves [handler]; no
    warning is logged and the valid frame behind it is never read. *)
Theorem unknown_type_raises_AttributeError :
  let hs : gmap pystr type_handler := {[ str_ "error" := accepting ]} in
  let r := handler hs
             (fresh [preamble; unknown_frame ++ [NUL]; error_k ++ [NUL]]) in
  r.1 = Raise AttributeError
  /\ logged WARNING (trace r.2) = []
  /\ frames (trace r.2) = [unknown_frame]
  /\ dispatches (trace r.2) = []
  /\ transport r.2 = [error_k ++ [NUL]].
Proof. repeat split; vm_compute; reflexivity. Qed.

(** C8.  A JSON object without a [type] field: the test of line 39
    indexes the missing key and [KeyError] leaves [handler]; nothing is
    logged and the valid frame behind it is never read.  An object with
    [type] and without [entity] is logged and dropped. *)
Theorem missing_type_raises_KeyError :
  let hs : gmap pystr type_handler := {[ str_ "error" := accepting ]} in
  let r := handler hs (fresh [preamble; no_type ++ [NUL]; error_k ++ [NUL]]) in
  let r' := handler hs (fresh [preamble; no_entity ++ [NUL]]) in
  r.1 = Raise KeyError
  /\ logged ERROR (trace r.2) = []
  /\ dispatches (trace r.2) = []
  /\ transport r.2 = [error_k ++ [NUL]]
  /\ r'.1 = Ret tt
  /\ logged ERROR (trace r'.2)
     = ["Message doesn't contain an entity field"%string]
  /\ dispatches (trace r'.2) = [].
Proof. repeat split; vm_compute; reflexivity. Qed.

(* 6.9 the registry of message kinds *)

Lemma MessageMeta_new_inv name type_attr schema_attr types types' :
  MessageMeta_new name type_attr schema_attr types = Ret types' ->
  (name = "Message"%string /\ types' = types)
  \/ (name <> "Message"%string
      /\ exists tag sch,
           type_attr = Some tag /\ tag <> [] /\ schema_attr = Some sch
           /\ types !! tag = None
           /\ types' = <[tag := {| type_ := tag; schema := sch |}]> types).
Proof.
  unfold MessageMeta_new. destruct (String.eqb_spec name "Message") as [->|Hn].
  - intros [= <-]. by left.
  - intros Hnew. right. split; [exact Hn|].
    destruct type_attr as [[|a tag]|]; try discriminate.
    destruct schema_attr as [sch|]; try discriminate.
    destruct (types !! (a :: tag)) eqn:Hl; try discriminate.
    injection Hnew as <-. by exists (a :: tag), sch.
Qed.

Lemma module_types_keyed : keyed_by_type module_types.
Proof.
  intros tag c.
  change module_types with (<[str_ "error" := ErrorMessage]>
                              (∅ : gmap pystr message_cls)).
  destruct (decide (str_ "error" = tag)) as [<-|Hne].
  - rewrite lookup_insert_eq. by intros [= <-].
  - rewrite lookup_insert_ne by done. by rewrite lookup_empty.
Qed.

(** X2.  A [type_] that is already registered cannot be registered
    again: a class statement with it raises [TypeError], whatever its
    schema.  The one exception is a class named ["Message"]: that name
    is taken for the base class, the statement succeeds and the registry
    stays as it is. *)
Theorem MessageMeta_new_duplicate name tag schema_attr types c :
  types !! tag = Some c ->
  MessageMeta_new name (Some tag) schema_attr types
  = if String.eqb name "Message" then Ret types else Raise TypeError.
Proof.
  intros Hl. unfold MessageMeta_new.
  destruct (String.eqb name "Message"); [reflexivity|].
  destruct tag; [reflexivity|].
  destruct schema_attr; [|reflexivity]. by rewrite Hl.
Qed.

Lemma MessageMeta_new_duplicate_witness :
  MessageMeta_new "Other" (Some (str_ "error")) (Some NotEmpty) module_types
  = Raise TypeError
  /\ MessageMeta_new "Message" (Some (str_ "error")) (Some NotEmpty)
       module_types
     = Ret module_types.
Proof.
  split.
  - apply (MessageMeta_new_duplicate "Other" (str_ "error") (Some NotEmpty)
             module_types ErrorMessage).
    vm_compute. reflexivity.
  - apply (MessageMeta_new_duplicate "Message" (str_ "error") (Some NotEmpty)
             module_types ErrorMessage).
    vm_compute. reflexivity.
Defined.

(** X3.  Registration keeps what is registered and keeps every class
    under its own [type_]. *)
Theorem MessageMeta_new_preserves name type_attr schema_attr types types' :
  MessageMeta_new name type_attr schema_attr types = Ret types' ->
  (forall tag c, types !! tag = Some c -> types' !! tag = Some c)
  /\ (keyed_by_type types -> keyed_by_type types').
Proof.
  intros Hnew. apply MessageMeta_new_inv in Hnew
    as [[_ ->] | (_ & tag & sch & _ & _ & _ & Hl & ->)]; [done|].
  split.
  - intros tag' c Hc. rewrite lookup_insert_ne; [done|]. congruence.
  - intros Hk tag' c. destruct (decide (tag = tag')) as [<-|Hne].
    + rewrite lookup_insert_eq. by intros [= <-].
    + rewrite lookup_insert_ne by done. apply Hk.
Qed.

Lemma MessageMeta_new_preserves_witness :
  (forall tag c, (∅ : gmap pystr message_cls) !! tag = Some c ->
                 module_types !! tag = Some c)
  /\ (keyed_by_type ∅ -> keyed_by_type module_types).
Proof.
  apply (MessageMeta_new_preserves "ErrorMessage" (Some (str_ "error"))
           (Some NotEmpty) ∅ module_types).
  vm_compute. reflexivity.
Defined.

(* 6.10 more on Message.decode *)

Section DecodingMore.
Context `{PyLib}.
Variable types : gmap pystr message_cls.

(** X4.  Whatever [decode] returns has been validated: the bytes are the
    UTF-8 JSON text of an object whose [type] field is a string that is
    registered, the message is of the class registered under it, and its
    entity is what that class's validator made of the [entity] field. *)
Theorem decode_returns_validated (raw : bytes) (m : message) :
  keyed_by_type types ->
  decode types raw = Ret m ->
  exists d,
    envelope raw d
    /\ dict_lookup (str_ "type") d = Some (PStr (type_ (cls m)))
    /\ types !! type_ (cls m) = Some (cls m)
    /\ to_python (schema (cls m)) (dict_get (str_ "entity") d)
       = Some (entity m).
Proof.
  intros Hk. unfold decode, envelope.
  destruct (bytes_decode raw) as [text|] eqn:Hb; [|discriminate].
  destruct (json_loads text) as [v|] eqn:Hj; [|discriminate].
  destruct v as [ | ? | ? | ? | ? | ? | ? | d]; try discriminate.
  unfold types_getitem, dict_get.
  destruct (dict_lookup (str_ "type") d) as [t|] eqn:Ht; [|discriminate].
  destruct t as [ | ? | ? | ? | tag | ? | ? | ?]; try discriminate.
  cbn [hashable negb].
  destruct (types !! tag) as [c|] eqn:Hc; [|discriminate].
  destruct (to_python (schema c) _) as [v|] eqn:Hv; [|discriminate].
  intros [= <-]. cbn [cls entity].
  rewrite (Hk tag c Hc). exists d. repeat split; eauto.
Qed.

End DecodingMore.

(** X1.  Registration and decoding compose: once a class statement with
    [type_ = tag] and a schema has succeeded, for a class that is not
    named ["Message"], a frame that is the JSON object with that tag as
    [type] decodes through that schema, to a message of the new class or
    to [formencode.Invalid].  A class named ["Message"] is not
    registered: [decode] goes on as before the statement. *)
Theorem registered_class_decodes `{PyLib} name tag sch types types' raw d :
  MessageMeta_new name (Some tag) (Some sch) types = Ret types' ->
  envelope raw d ->
  dict_lookup (str_ "type") d = Some (PStr tag) ->
  decode types' raw
  = if String.eqb name "Message" then decode types raw
    else
      match to_python sch (dict_get (str_ "entity") d) with
      | None => Raise Invalid
      | Some v =>
        Ret {| cls := {| type_ := tag; schema := sch |}; entity := v |}
      end.
Proof.
  intros Hnew (text & Hb & Hj) Ht.
  apply MessageMeta_new_inv in Hnew
    as [[-> ->] | (Hn & tag' & sch' & [= <-] & _ & [= <-] & _ & ->)];
    [reflexivity|].
  destruct (String.eqb_spec name "Message") as [Hm|_]; [by destruct Hn|].
  unfold decode. rewrite Hb, Hj. unfold dict_get at 1. rewrite Ht.
  unfold types_getitem. cbn [hashable negb]. by rewrite lookup_insert_eq.
Qed.

Lemma registered_class_decodes_witness :
  decode module_types error_k
  = match to_python NotEmpty (PStr (str_ "k")) with
    | None => Raise Invalid
    | Some v => Ret {| cls := ErrorMessage; entity := v |}
    end.
Proof.
  apply (registered_class_decodes "ErrorMessage" (str_ "error") NotEmpty ∅
           module_types error_k
           [(str_ "type", PStr (str_ "error"));
            (str_ "entity", PStr (str_ "k"))]).
  - vm_compute. reflexivity.
  - exists (jstr "{'type': 'error', 'entity': 'k'}"). split; reflexivity.
  - reflexivity.
Defined.

Lemma decode_returns_validated_witness :
  exists d,
    envelope error_k d
    /\ dict_lookup (str_ "type") d = Some (PStr (str_ "error"))
    /\ module_types !! str_ "error" = Some ErrorMessage
    /\ to_python NotEmpty (dict_get (str_ "entity") d)
       = Some (PStr (str_ "k")).
Proof.
  apply (decode_returns_validated module_types error_k
           {| cls := ErrorMessage; entity := PStr (str_ "k") |}).
  - exact module_types_keyed.
  - vm_compute. reflexivity.
Defined.


(* 6.11 where the first terminator is *)

Lemma bytes_find_split x (f rest : bytes) :
  x ∉ f -> bytes_find x (f ++ x :: rest) = Z.of_nat (length f).
Proof.
  induction f as [|y f IH]; intros Hx; cbn [app bytes_find length].
  - by rewrite Byte.byte_dec_lb.
  - destruct (Byte.eqb y x) eqn:E.
    + apply Byte.byte_dec_bl in E. subst. exfalso. apply Hx. left.
    + rewrite IH; [|intros Hin; apply Hx; by right].
      destruct (Z.of_nat (length f) =? -1) eqn:E'; lia.
Qed.

Lemma bytes_find_decompose x (b : bytes) :
  bytes_find x b <> -1 ->
  exists f rest, b = f ++ x :: rest /\ x ∉ f.
Proof.
  induction b as [|y b IH]; cbn [bytes_find]; [done|].
  destruct (Byte.eqb y x) eqn:E.
  - intros _. apply Byte.byte_dec_bl in E. subst.
    exists [], b. split; [done|]. apply not_elem_of_nil.
  - destruct (bytes_find x b =? -1) eqn:E'; [done|]. intros _.
    destruct IH as (f & rest & -> & Hf); [lia|].
    exists (y :: f), rest. split; [done|].
    apply not_elem_of_cons. split; [|done].
    apply Byte.eqb_false in E. congruence.
Qed.

Lemma slice_to_split (f rest : bytes) :
  slice_to (f ++ rest) (Z.of_nat (length f)) = f.
Proof.
  unfold slice_to. destruct (Z.ltb_spec (Z.of_nat (length f)) 0); [lia|].
  rewrite Nat2Z.id. by rewrite take_app_length.
Qed.

Lemma slice_from_split (f rest : bytes) :
  slice_from (f ++ rest) (Z.of_nat (length f)) = rest.
Proof.
  unfold slice_from. destruct (Z.ltb_spec (Z.of_nat (length f)) 0); [lia|].
  rewrite Nat2Z.id. by rewrite drop_app_length.
Qed.

(* 6.12 Message.decode_from_buffer *)

Section BufferDecoding.
Context `{PyLib}.
Variable types : gmap pystr message_cls.

Lemma buffer_loop_fetch fuel (b : bytes) :
  (length b <= DEFAULT_BUFFER_SIZE)%nat ->
  decode_from_buffer_loop types fuel {| buffered := []; underlying := b |}
  = decode_from_buffer_loop types fuel {| buffered := b; underlying := [] |}.
Proof.
  intros Hlen. destruct fuel as [|fuel]; [reflexivity|].
  cbn [decode_from_buffer_loop]. unfold peek. cbn [buffered underlying].
  rewrite take_ge, drop_ge by lia. destruct b; reflexivity.
Qed.

Lemma buffer_loop_step fuel (f rest : bytes) :
  NUL ∉ f ->
  decode_from_buffer_loop types (S fuel)
    {| buffered := f ++ NUL :: rest; underlying := [] |}
  = match decode types f with
    | Ret m =>
      let '(ms, o) :=
        decode_from_buffer_loop types fuel
          {| buffered := rest; underlying := [] |} in
      (m :: ms, o)
    | Raise e => ([], Raise e)
    | Fuel => ([], Fuel)
    end.
Proof.
  intros Hf. cbn [decode_from_buffer_loop]. unfold peek.
  cbn [buffered underlying].
  destruct (f ++ NUL :: rest) as [|y b] eqn:Eb.
  { by destruct f. }
  rewrite <- Eb. rewrite (bytes_find_split NUL f rest Hf).
  destruct (Z.eqb_spec (Z.of_nat (length f)) (-1)); [lia|].
  unfold read. cbn [buffered underlying].
  replace (Z.to_nat (Z.of_nat (length f) + 1)) with (length (f ++ [NUL]))
    by (rewrite length_app; cbn; lia).
  replace (f ++ NUL :: rest) with ((f ++ [NUL]) ++ rest)
    by (by rewrite <- app_assoc).
  destruct (length (f ++ [NUL]) <=? length ((f ++ [NUL]) ++ rest))%nat eqn:El.
  2:{ apply Nat.leb_gt in El. rewrite length_app in El. lia. }
  rewrite take_app_length, drop_app_length.
  replace (slice_to (f ++ [NUL]) (-1)) with f; [reflexivity|].
  unfold slice_to. cbn [Z.ltb Z.compare].
  replace (Z.to_nat (Z.of_nat (length (f ++ [NUL])) + -1)) with (length f)
    by (rewrite length_app; cbn; lia).
  by rewrite take_app_length.
Qed.

Lemma buffer_loop_end fuel (b : bytes) :
  NUL ∉ b ->
  decode_from_buffer_loop types (S fuel)
    {| buffered := b; underlying := [] |} = ([], Ret tt).
Proof.
  intros Hb. cbn [decode_from_buffer_loop]. unfold peek.
  cbn [buffered underlying]. destruct b as [|y b]; [reflexivity|].
  by rewrite (bytes_find_absent NUL (y :: b) Hb).
Qed.

Lemma buffer_loop_fuel fuel : forall fuel' (b : bytes),
  (length b < fuel)%nat -> (length b < fuel')%nat ->
  decode_from_buffer_loop types fuel {| buffered := b; underlying := [] |}
  = decode_from_buffer_loop types fuel'
      {| buffered := b; underlying := [] |}.
Proof.
  induction fuel as [|fuel IH]; intros fuel' b Hf Hf'; [lia|].
  destruct fuel' as [|fuel']; [lia|].
  destruct (decide (bytes_find NUL b = -1)) as [Hn|Hn].
  - assert (NUL ∉ b) as Hb.
    { intros Hin. apply bytes_find_present in Hin. lia. }
    by rewrite !buffer_loop_end.
  - apply bytes_find_decompose in Hn as (f & rest & -> & Hnf).
    rewrite !buffer_loop_step by done.
    rewrite length_app in Hf, Hf'. cbn [length] in Hf, Hf'.
    rewrite (IH fuel' rest) by lia. reflexivity.
Qed.

(** X6.  A buffer without terminator, the empty buffer included, yields
    no message: the generator is exhausted at once and what is in the
    buffer is not decoded. *)
Theorem decode_from_buffer_unterminated (buffer_ : bytes) :
  NUL ∉ buffer_ -> decode_from_buffer types buffer_ = ([], Ret tt).
Proof.
  intros Hb. unfold decode_from_buffer.
  cbn [decode_from_buffer_loop]. unfold peek. cbn [buffered underlying].
  destruct buffer_ as [|y b]; [by rewrite take_nil|].
  destruct (take DEFAULT_BUFFER_SIZE (y :: b)) as [|z got] eqn:Et.
  - reflexivity.
  - rewrite bytes_find_absent; [reflexivity|].
    intros Hin. apply Hb. rewrite <- (take_drop DEFAULT_BUFFER_SIZE (y :: b)).
    rewrite Et. apply elem_of_app. by left.
Qed.

(** X7.  For a buffer that fits the reader's buffer, [decode_from_buffer]
    goes frame by frame: the bytes before the first terminator are
    decoded without it; if that raises, the generator ends with the
    exception, having yielded nothing; otherwise it yields the message
    and goes on as on the bytes after the terminator. *)
Theorem decode_from_buffer_frame (f rest : bytes) :
  NUL ∉ f ->
  (length (f ++ NUL :: rest) <= DEFAULT_BUFFER_SIZE)%nat ->
  decode_from_buffer types (f ++ NUL :: rest)
  = match decode types f with
    | Ret m =>
      let '(ms, o) := decode_from_buffer types rest in (m :: ms, o)
    | Raise e => ([], Raise e)
    | Fuel => ([], Fuel)
    end.
Proof.
  intros Hf Hlen. unfold decode_from_buffer.
  assert (length rest <= DEFAULT_BUFFER_SIZE)%nat as Hrest.
  { rewrite length_app in Hlen. cbn [length] in Hlen. lia. }
  rewrite !buffer_loop_fetch by done.
  rewrite buffer_loop_step by done.
  rewrite (buffer_loop_fuel (length (f ++ NUL :: rest)) (S (length rest)));
    [reflexivity | | lia].
  rewrite length_app. cbn [length]. lia.
Qed.
End BufferDecoding.

Lemma decode_from_buffer_unterminated_witness :
  decode_from_buffer module_types (bytes_ "okay") = ([], Ret tt).
Proof.
  apply (decode_from_buffer_unterminated module_types (bytes_ "okay")).
  vm_compute. intros Hin.
  repeat (apply elem_of_cons in Hin as [Hin|Hin]; [discriminate Hin|]).
  by apply elem_of_nil in Hin.
Defined.

Lemma decode_from_buffer_frame_witness :
  decode_from_buffer module_types (error_k ++ NUL :: bytes_ "okay")
  = match decode module_types error_k with
    | Ret m =>
      let '(ms, o) := decode_from_buffer module_types (bytes_ "okay") in
      (m :: ms, o)
    | Raise e => ([], Raise e)
    | Fuel => ([], Fuel)
    end.
Proof.
  apply (decode_from_buffer_frame module_types error_k (bytes_ "okay")).
  - vm_compute. intros Hin.
    repeat (apply elem_of_cons in Hin as [Hin|Hin]; [discriminate Hin|]).
    by apply elem_of_nil in Hin.
  - vm_compute. lia.
Defined.

(* 6.13 the handler table *)

(** X8.  [register_handler] succeeds only for a type that has no handler
    yet; the new table maps the type to the handler and is the old one
    elsewhere, and a second registration for the type raises
    [ValueError]. *)
Theorem register_handler_once tag (h : type_handler) hs hs' :
  register_handler tag h hs = Ret hs' ->
  hs !! tag = None
  /\ hs' !! tag = Some h
  /\ (forall k, k <> tag -> hs' !! k = hs !! k)
  /\ (forall h', register_handler tag h' hs' = Raise ValueError).
Proof.
  unfold register_handler. destruct (hs !! tag) eqn:Hl; [discriminate|].
  intros [= <-]. split; [done|]. split; [apply lookup_insert_eq|].
  split.
  - intros k Hk. by rewrite lookup_insert_ne.
  - intros h'. by rewrite lookup_insert_eq.
Qed.

Lemma register_handler_once_witness :
  (∅ : gmap pystr type_handler) !! str_ "error" = None
  /\ ({[ str_ "error" := accepting ]} : gmap pystr type_handler)
       !! str_ "error" = Some accepting
  /\ (forall k, k <> str_ "error" ->
       ({[ str_ "error" := accepting ]} : gmap pystr type_handler) !! k
       = (∅ : gmap pystr type_handler) !! k)
  /\ (forall h', register_handler (str_ "error") h'
                   {[ str_ "error" := accepting ]} = Raise ValueError).
Proof.
  apply (register_handler_once (str_ "error") accepting ∅).
  reflexivity.
Defined.

Section DispatchingMore.
Context `{PyLib}.

(** X9.  Registration and dispatch compose: once [register_handler] has
    accepted a handler for a type, [_process_message] on an object with
    that type and an [entity] field calls that handler with the entity,
    and ends as the handler does. *)
Theorem registered_handler_is_called tag (h : type_handler) hs hs' d payload c :
  register_handler tag h hs = Ret hs' ->
  dict_lookup (str_ "type") d = Some (PStr tag) ->
  dict_lookup (str_ "entity") d = Some payload ->
  _process_message hs' (PDict d) c
  = (returned (h payload), after c [Dispatch tag payload]).
Proof.
  unfold register_handler. destruct (hs !! tag) eqn:Hl; [discriminate|].
  intros [= <-] Ht Hp.
  apply process_message_dispatch; [done | done | apply lookup_insert_eq].
Qed.

Variable hs : gmap pystr type_handler.

Lemma after_nil c : after c [] = c.
Proof. destruct c. unfold after. cbn. by rewrite app_nil_r. Qed.

(** What [_process_message] adds to the trace, case by case. *)
Lemma process_message_events msg c :
  exists o evs,
    _process_message hs msg c = (o, after c evs)
    /\ ((evs = [] /\ exists e, o = Raise e)
        \/ (evs = [Log ERROR "Message is not a dictionary"] /\ o = Ret tt)
        \/ (evs = [Log ERROR "Message doesn't contain an entity field"]
            /\ o = Ret tt)
        \/ (exists tag payload,
              evs = [Dispatch tag payload] /\ o <> Fuel)).
Proof.
  destruct msg as [ | ? | ? | ? | ? | ? | ? | d];
    try (eexists _, _; split; [reflexivity|]; right; left; done).
  destruct (dict_lookup (str_ "type") d) as [t|] eqn:Ht.
  2:{ exists (Raise KeyError), []. rewrite after_nil. split; [|left; eauto].
      unfold _process_message, dict_contains, dict_getitem.
      rewrite Ht. reflexivity. }
  destruct (dict_lookup (str_ "entity") d) as [payload|] eqn:He.
  2:{ eexists _, _. split; [|right; right; left; done].
      unfold _process_message, dict_contains, dict_getitem.
      rewrite Ht, He. reflexivity. }
  assert (forall k : outcome bool,
    (k = Ret false \/ k = Raise TypeError) ->
    handlers_contains hs t = k ->
    exists e, _process_message hs (PDict d) c = (Raise e, c)) as Hraise.
  { intros k Hk Hc.
    unfold _process_message, dict_contains, dict_getitem.
    rewrite Ht, He. cbn [negb].
    unfold mbind, M_bind, mret, M_ret, lift. rewrite Hc.
    destruct Hk as [-> | ->]; eexists; reflexivity. }
  assert (forall e, _process_message hs (PDict d) c = (Raise e, c) ->
    exists o evs,
      _process_message hs (PDict d) c = (o, after c evs)
      /\ ((evs = [] /\ exists e, o = Raise e)
          \/ (evs = [Log ERROR "Message is not a dictionary"] /\ o = Ret tt)
          \/ (evs = [Log ERROR "Message doesn't contain an entity field"]
              /\ o = Ret tt)
          \/ (exists tag payload,
                evs = [Dispatch tag payload] /\ o <> Fuel))) as Hpack.
  { intros e He'. exists (Raise e), []. rewrite after_nil.
    split; [done | left; eauto]. }
  destruct t as [ | ? | ? | ? | tag | ? | ? | ?];
    try (edestruct Hraise as [e He']; [|reflexivity|exact (Hpack e He')];
         auto; fail).
  destruct (hs !! tag) as [h|] eqn:Hh.
  - exists (returned (h payload)), [Dispatch tag payload].
    split; [by apply process_message_dispatch|].
    right; right; right. exists tag, payload. split; [done|].
    by destruct (h payload).
  - destruct (Hraise (Ret false)) as [e He']; [auto| |exact (Hpack e He')].
    unfold handlers_contains. cbn [negb hashable]. rewrite Hh.
    rewrite bool_decide_eq_false_2; [done|]. by intros [? ?].
Qed.

End DispatchingMore.

Lemma registered_handler_is_called_witness :
  _process_message {[ str_ "error" := failing ]}
    (PDict [(str_ "type", PStr (str_ "error"));
            (str_ "entity", PStr (str_ "k"))]) (fresh [])
  = (returned (failing (PStr (str_ "k"))),
     after (fresh []) [Dispatch (str_ "error") (PStr (str_ "k"))]).
Proof.
  apply (registered_handler_is_called (str_ "error") failing ∅); reflexivity.
Defined.

(* 6.14 the read loop, turn by turn *)

Section ReadingMore.
Context `{PyLib}.
Variable hs : gmap pystr type_handler.

(** One turn of the loop: the peer has closed; or there is no terminator
    yet; or a slice is taken and the loop stops or goes on. *)
Lemma read_loop_turn n c :
  let got := (recv_from RECV_SIZE (transport c)).1 in
  let t' := (recv_from RECV_SIZE (transport c)).2 in
  let buf := buffer c ++ got in
  let i := bytes_find NUL buf in
  let raw := slice_to buf i in
  let next evs := {| transport := t'; buffer := slice_from buf i;
                     trace := trace c ++ Frame raw :: evs |} in
  (got = []
   /\ read_loop hs (S n) c
      = (Ret tt, {| transport := t'; buffer := buffer c;
                    trace := trace c
                             ++ [Log DEBUG "Connection terminated by client"] |}))
  \/ (got <> [] /\ i = -1
      /\ read_loop hs (S n) c
         = read_loop hs n {| transport := t'; buffer := buf;
                             trace := trace c |})
  \/ (got <> [] /\ i <> -1
      /\ ((bytes_decode raw = None
           /\ read_loop hs (S n) c
              = (Ret tt, next [Log ERROR "Couldn't decode message as UTF-8"]))
          \/ (exists text,
                bytes_decode raw = Some text /\ json_loads text = None
                /\ read_loop hs (S n) c
                   = (Ret tt, next [Log ERROR "Malformed JSON message"]))
          \/ (exists text msg o evs,
                bytes_decode raw = Some text /\ json_loads text = Some msg
                /\ ((evs = [] /\ exists e, o = Raise e)
                    \/ (evs = [Log ERROR "Message is not a dictionary"]
                        /\ o = Ret tt)
                    \/ (evs = [Log ERROR
                                 "Message doesn't contain an entity field"]
                        /\ o = Ret tt)
                    \/ (exists tag payload,
                          evs = [Dispatch tag payload] /\ o <> Fuel))
                /\ read_loop hs (S n) c
                   = match o with
                     | Ret _ => read_loop hs n (next evs)
                     | _ => (o, next evs)
                     end))).
Proof.
  intros got t' buf i raw next.
  pose proof (read_loop_step hs n c) as Hs. cbv zeta in Hs.
  change ((recv_from RECV_SIZE (transport c)).1) with got in Hs.
  change ((recv_from RECV_SIZE (transport c)).2) with t' in Hs.
  change (buffer c ++ got) with buf in Hs.
  change (bytes_find NUL buf) with i in Hs.
  change (slice_to buf i) with raw in Hs.
  destruct (decide (got = [])) as [Eg|Eg].
  { left. split; [done|]. rewrite Hs, Eg. reflexivity. }
  right.
  assert (read_loop hs (S n) c =
    if i =? -1 then
      read_loop hs n {| transport := t'; buffer := buf; trace := trace c |}
    else
      match bytes_decode raw with
      | None =>
        (Ret tt, next [Log ERROR "Couldn't decode message as UTF-8"])
      | Some text =>
        match json_loads text with
        | None => (Ret tt, next [Log ERROR "Malformed JSON message"])
        | Some msg =>
          match _process_message hs msg (next []) with
          | (Ret _, c2) => read_loop hs n c2
          | (Raise e, c2) => (Raise e, c2)
          | (Fuel, c2) => (Fuel, c2)
          end
        end
      end) as Hs'.
  { rewrite Hs. destruct got; [done|]. unfold next.
    destruct (i =? -1); [reflexivity|].
    destruct (bytes_decode raw);
      [|cbn [trace]; by rewrite <- app_assoc].
    destruct (json_loads _);
      [reflexivity | cbn [trace]; by rewrite <- app_assoc]. }
  clear Hs. destruct (Z.eqb_spec i (-1)) as [Hi|Hi]; [left; done|].
  right. split; [done|]. split; [done|].
  destruct (bytes_decode raw) as [text|] eqn:Hb; [|left; done].
  right. destruct (json_loads text) as [msg|] eqn:Hj.
  2:{ left. by exists text. }
  right.
  destruct (process_message_events hs msg (next []))
    as (o & evs & Hp & Hevs).
  rewrite Hp in Hs'. exists text, msg, o, evs.
  repeat split; try done. rewrite Hs'.
  unfold after, next. cbn [transport buffer trace].
  rewrite <- app_assoc. cbn [app]. by destruct o as [[]| |].
Qed.

Lemma frames_app evs evs' : frames (evs ++ evs') = frames evs ++ frames evs'.
Proof. apply omap_app. Qed.

Lemma frames_frame raw evs : frames (Frame raw :: evs) = raw :: frames evs.
Proof. reflexivity. Qed.

Lemma dispatches_app evs evs' :
  dispatches (evs ++ evs') = dispatches evs ++ dispatches evs'.
Proof. apply omap_app. Qed.

Lemma bytes_find_none x (b : bytes) : bytes_find x b = -1 -> x ∉ b.
Proof. intros Hf Hin. apply bytes_find_present in Hin. lia. Qed.

(** X15.  When the peer closes without having sent a terminator, the
    loop returns with every byte received still in the buffer, undecoded:
    nothing is dispatched and only the closing is logged. *)
Theorem read_json_unterminated (t : list bytes) :
  NUL ∉ concat t ->
  _read_json hs (fresh t)
  = (Ret tt,
     {| transport := []; buffer := concat t;
        trace := [Log DEBUG "Connection terminated by client"] |}).
Proof.
  intros Hnul. rewrite read_json_fresh. unfold fresh.
  rewrite read_loop_no_terminator; [reflexivity | done | lia].
Qed.

Lemma read_loop_extends fuel c :
  exists evs, trace (read_loop hs fuel c).2 = trace c ++ evs.
Proof.
  destruct (read_loop_served hs fuel c) as (evs & Ht & _). by exists evs.
Qed.

Lemma first_frame_of_stream fuel : forall t buf tr,
  NUL ∉ buf ->
  NUL ∈ concat t ->
  (length (concat t) < fuel)%nat ->
  exists evs,
    trace (read_loop hs fuel {| transport := t; buffer := buf; trace := tr |}).2
    = tr ++ Frame (slice_to (buf ++ concat t)
                     (bytes_find NUL (buf ++ concat t))) :: evs.
Proof.
  induction fuel as [|fuel IH]; intros t buf tr Hbuf Hin Hfuel; [lia|].
  pose proof (read_loop_turn fuel
                {| transport := t; buffer := buf; trace := tr |}) as Hturn.
  cbv zeta in Hturn. cbn [transport buffer trace] in Hturn.
  destruct (recv_from_concat RECV_SIZE t RECV_SIZE_pos)
    as (Hcat & Hnil & Hlt).
  destruct (recv_from RECV_SIZE t) as [got t']. cbn [fst snd] in *.
  assert (forall f r, buf ++ got = f ++ NUL :: r -> NUL ∉ f ->
    slice_to (buf ++ got) (bytes_find NUL (buf ++ got))
    = slice_to (buf ++ concat t) (bytes_find NUL (buf ++ concat t)))
    as Hsame.
  { intros f r Hf Hnf. rewrite <- Hcat, app_assoc, Hf.
    rewrite <- app_assoc. cbn [app].
    rewrite !bytes_find_split by done.
    by rewrite (slice_to_split f (NUL :: r)),
      (slice_to_split f (NUL :: r ++ concat t')). }
  destruct Hturn
    as [[Hg _] | [(Hg & Hi & ->) | (Hg & Hi & [[_ ->] | [(text & _ & _ & ->)
        | (text & msg & o & evs & _ & _ & _ & ->)]])]].
  - destruct (Hnil Hg) as [_ Hc]. rewrite Hc in Hin.
    by apply elem_of_nil in Hin.
  - apply bytes_find_none in Hi.
    destruct (IH t' (buf ++ got) tr) as (evs & Hevs).
    + exact Hi.
    + rewrite <- Hcat in Hin. apply elem_of_app in Hin as [Hin|Hin]; [|done].
      exfalso. apply Hi. apply elem_of_app. by right.
    + specialize (Hlt Hg). lia.
    + exists evs. by rewrite Hevs, <- app_assoc, Hcat.
  - destruct (bytes_find_decompose NUL _ Hi) as (f & r & Hf & Hnf).
    rewrite (Hsame f r Hf Hnf). eexists. reflexivity.
  - destruct (bytes_find_decompose NUL _ Hi) as (f & r & Hf & Hnf).
    rewrite (Hsame f r Hf Hnf). eexists. reflexivity.
  - destruct (bytes_find_decompose NUL _ Hi) as (f & r & Hf & Hnf).
    rewrite (Hsame f r Hf Hnf).
    destruct o as [[]|e|]; [|eexists; reflexivity..].
    match goal with |- context [read_loop hs fuel ?c2] =>
      destruct (read_loop_extends fuel c2) as (evs' & ->) end.
    cbn [trace]. rewrite <- app_assoc. cbn [app]. eexists. reflexivity.
Qed.

(** X11.  The first slice that [_read_json] takes is the part of the
    byte stream before its first terminator, however the stream is cut
    into segments and however [recv] returns it. *)
Theorem read_json_first_frame (t : list bytes) :
  NUL ∈ concat t ->
  exists rest,
    frames (trace (_read_json hs (fresh t)).2)
    = slice_to (concat t) (bytes_find NUL (concat t)) :: rest.
Proof.
  intros Hin. rewrite read_json_fresh. unfold fresh.
  destruct (first_frame_of_stream (S (length (concat t))) t [] [])
    as (evs & ->); [apply not_elem_of_nil | done | lia |].
  cbn. eauto.
Qed.

Lemma slice_at_terminator (r got : bytes) :
  bytes_find NUL ((NUL :: r) ++ got) = 0
  /\ slice_to ((NUL :: r) ++ got) 0 = []
  /\ slice_from ((NUL :: r) ++ got) 0 = NUL :: r ++ got.
Proof. repeat split. Qed.

Lemma slice_from_terminator (b : bytes) :
  bytes_find NUL b <> -1 ->
  exists r, slice_from b (bytes_find NUL b) = NUL :: r.
Proof.
  intros Hi. destruct (bytes_find_decompose NUL b Hi) as (f & r & -> & Hnf).
  rewrite bytes_find_split by done. rewrite slice_from_split. by exists r.
Qed.

Lemma dispatches_frame raw evs : dispatches (Frame raw :: evs) = dispatches evs.
Proof. reflexivity. Qed.


(** X16.  [send] is all or nothing: either the message serializes and
    exactly one call of [sendall] gets its UTF-8 JSON text followed by
    the terminator, or an exception leaves [send] and nothing is sent. *)
Theorem send_all_or_nothing (tag payload : pyval) (c : conn) :
  (exists text data,
     json_dumps (PDict [(str_ "type", tag); (str_ "message", payload)])
     = Ret text
     /\ str_encode text = Ret data
     /\ send tag payload c = (Ret tt, after c [Sendall (data ++ [NUL])]))
  \/ (exists o, o <> Ret tt /\ send tag payload c = (o, c)).
Proof.
  unfold send, mbind, M_bind, lift.
  destruct (json_dumps _) as [text|e|] eqn:Hd.
  - destruct (str_encode text) as [data|e|] eqn:He.
    + left. by exists text, data.
    + right. by exists (Raise e).
    + right. by exists Fuel.
  - right. by exists (Raise e).
  - right. by exists Fuel.
Qed.
End ReadingMore.

Lemma read_json_unterminated_witness :
  _read_json ∅ (fresh [bytes_ "ok"; bytes_ "ay"])
  = (Ret tt,
     {| transport := []; buffer := concat [bytes_ "ok"; bytes_ "ay"];
        trace := [Log DEBUG "Connection terminated by client"] |}).
Proof.
  apply (read_json_unterminated ∅ [bytes_ "ok"; bytes_ "ay"]).
  vm_compute. intros Hin.
  repeat (apply elem_of_cons in Hin as [Hin|Hin]; [discriminate Hin|]).
  by apply elem_of_nil in Hin.
Defined.

Lemma read_json_first_frame_witness :
  exists rest,
    frames (trace (_read_json ∅ (fresh [bytes_ "ab"; [NUL]; bytes_ "c"])).2)
    = slice_to (concat [bytes_ "ab"; [NUL]; bytes_ "c"])
        (bytes_find NUL (concat [bytes_ "ab"; [NUL]; bytes_ "c"])) :: rest.
Proof.
  apply (read_json_first_frame ∅ [bytes_ "ab"; [NUL]; bytes_ "c"]).
  vm_compute. do 2 apply list_elem_of_further. apply list_elem_of_here.
Defined.

(* 6.15 handlers that are given the connection *)

Section SelfHandlers.
Context `{PyLib}.
Variable hs : gmap pystr self_handler.

(** [_process_message] raises before it has done anything, or logs one
    error and returns, or runs the handler found under the [type] on the
    connection, the call recorded. *)
Lemma process_message_self_shape msg c :
  (exists e, _process_message_self hs msg c = (Raise e, c))
  \/ (exists text,
        _process_message_self hs msg c = (Ret tt, after c [Log ERROR text]))
  \/ (exists d tag payload h,
        msg = PDict d
        /\ dict_lookup (str_ "type") d = Some (PStr tag)
        /\ dict_lookup (str_ "entity") d = Some payload
        /\ hs !! tag = Some h
        /\ _process_message_self hs msg c
           = h payload (after c [Dispatch tag payload])).
Proof.
  destruct msg as [ | ? | ? | ? | ? | ? | ? | d];
    try (right; left; eexists; reflexivity).
  destruct (dict_lookup (str_ "type") d) as [t|] eqn:Ht.
  2:{ left. exists KeyError.
      unfold _process_message_self, dict_contains, dict_getitem.
      rewrite Ht. reflexivity. }
  destruct (dict_lookup (str_ "entity") d) as [payload|] eqn:He.
  2:{ right; left. eexists.
      unfold _process_message_self, dict_contains, dict_getitem.
      rewrite Ht, He. reflexivity. }
  assert (forall k : outcome bool,
    (k = Ret false \/ k = Raise TypeError) ->
    table_contains hs t = k ->
    exists e, _process_message_self hs (PDict d) c = (Raise e, c)) as Hraise.
  { intros k Hk Hc.
    unfold _process_message_self, dict_contains, dict_getitem.
    rewrite Ht, He. cbn [negb].
    unfold mbind, M_bind, mret, M_ret, lift. rewrite Hc.
    destruct Hk as [-> | ->]; eexists; reflexivity. }
  destruct t as [ | ? | ? | ? | tag | ? | ? | ?];
    try (left; eapply Hraise; [|reflexivity]; auto; fail).
  destruct (hs !! tag) as [h|] eqn:Hh.
  - right; right. exists d, tag, payload, h.
    repeat (split; [done|]).
    unfold _process_message_self, dict_contains, dict_getitem,
      table_contains, table_getitem.
    rewrite Ht, He. cbn [negb hashable].
    unfold mbind, M_bind, mret, M_ret, lift. cbn [negb hashable].
    rewrite Hh. rewrite bool_decide_eq_true_2 by eauto. reflexivity.
  - left. apply (Hraise (Ret false)); [auto|].
    unfold table_contains. cbn [negb hashable]. rewrite Hh.
    rewrite bool_decide_eq_false_2; [done|]. by intros [? ?].
Qed.


(** X13.  When [_process_message] finds no handler it never gets to log
    the warning, and the error line of its first test is never logged:
    an object without [type] raises [KeyError]; a [type] that is a list
    or an object raises [TypeError]; any other [type] without a handler
    raises [AttributeError].  In each case nothing is logged and the
    connection is as it was. *)
Theorem process_message_self_unhandled d c :
  (dict_lookup (str_ "type") d = None ->
   _process_message_self hs (PDict d) c = (Raise KeyError, c))
  /\ (forall t payload,
        dict_lookup (str_ "type") d = Some t ->
        dict_lookup (str_ "entity") d = Some payload ->
        hashable t = false ->
        _process_message_self hs (PDict d) c = (Raise TypeError, c))
  /\ (forall t payload,
        dict_lookup (str_ "type") d = Some t ->
        dict_lookup (str_ "entity") d = Some payload ->
        hashable t = true ->
        (forall tag, t = PStr tag -> hs !! tag = None) ->
        _process_message_self hs (PDict d) c = (Raise AttributeError, c)).
Proof.
  split; [|split].
  - intros Ht. unfold _process_message_self, dict_contains, dict_getitem.
    rewrite Ht. reflexivity.
  - intros t payload Ht He Hh.
    unfold _process_message_self, dict_contains, dict_getitem.
    rewrite Ht, He. cbn [negb].
    unfold mbind, M_bind, mret, M_ret, lift. cbn beta iota.
    unfold table_contains. rewrite Hh. reflexivity.
  - intros t payload Ht He Hh Hno.
    unfold _process_message_self, dict_contains, dict_getitem.
    rewrite Ht, He. cbn [negb].
    unfold mbind, M_bind, mret, M_ret, lift. cbn beta iota.
    unfold table_contains. rewrite Hh. cbn [negb].
    destruct t as [ | ? | ? | ? | tag | ? | ? | ?];
      try reflexivity; try discriminate.
    rewrite (Hno tag eq_refl).
    rewrite bool_decide_eq_false_2; [reflexivity|]. by intros [? ?].
Qed.
Lemma read_loop_self_step n c :
  read_loop_self hs (S n) c =
  let got := (recv_from RECV_SIZE (transport c)).1 in
  let t' := (recv_from RECV_SIZE (transport c)).2 in
  match got with
  | [] =>
    (Ret tt, {| transport := t'; buffer := buffer c;
                trace := trace c
                         ++ [Log DEBUG "Connection terminated by client"] |})
  | _ =>
    let buf := buffer c ++ got in
    let i := bytes_find NUL buf in
    if i =? -1 then
      read_loop_self hs n
        {| transport := t'; buffer := buf; trace := trace c |}
    else
      let c1 := {| transport := t'; buffer := slice_from buf i;
                   trace := trace c ++ [Frame (slice_to buf i)] |} in
      match bytes_decode (slice_to buf i) with
      | None =>
        (Ret tt, {| transport := t'; buffer := slice_from buf i;
                    trace := trace c1
                             ++ [Log ERROR "Couldn't decode message as UTF-8"] |})
      | Some text =>
        match json_loads text with
        | None =>
          (Ret tt, {| transport := t'; buffer := slice_from buf i;
                      trace := trace c1
                               ++ [Log ERROR "Malformed JSON message"] |})
        | Some json_object =>
          match _process_message_self hs json_object c1 with
          | (Ret _, c2) => read_loop_self hs n c2
          | (Raise e, c2) => (Raise e, c2)
          | (Fuel, c2) => (Fuel, c2)
          end
        end
      end
  end.
Proof.
  cbn [read_loop_self]. unfold mbind, M_bind, recv.
  destruct (recv_from RECV_SIZE (transport c)) as [got t'].
  cbn [fst snd]. destruct got as [|b got]; [reflexivity|].
  cbn -[bytes_find slice_to slice_from "=?" _process_message_self
        read_loop_self].
  destruct (bytes_find NUL (buffer c ++ b :: got) =? -1); [reflexivity|].
  cbn -[bytes_find slice_to slice_from _process_message_self read_loop_self].
  destruct (bytes_decode _); [|reflexivity].
  destruct (json_loads _); reflexivity.
Qed.

Section Polite.
Hypothesis handlers_polite : forall tag h, hs !! tag = Some h -> polite h.

Lemma process_message_self_polite msg c :
  exists o c2 evs,
    _process_message_self hs msg c = (o, c2)
    /\ buffer c2 = buffer c
    /\ trace c2 = trace c ++ evs
    /\ frames evs = []
    /\ (length (dispatches evs) <= 1)%nat.
Proof.
  destruct (process_message_self_shape msg c)
    as [(e & ->) | [(text & ->) | (d & tag & payload & h & _ & _ & _ & Hh & ->)]].
  - exists (Raise e), c, []. rewrite app_nil_r. repeat split. cbn. lia.
  - exists (Ret tt), (after c [Log ERROR text]), [Log ERROR text].
    repeat split. cbn. lia.
  - destruct (handlers_polite tag h Hh payload
                (after c [Dispatch tag payload]))
      as (Hbuf & evs & Htr & Hf & Hd).
    destruct (h payload (after c [Dispatch tag payload])) as [o c2].
    cbn [snd] in *. exists o, c2, (Dispatch tag payload :: evs).
    split; [done|]. split; [done|]. split.
    { rewrite Htr. cbn [after trace]. by rewrite <- app_assoc. }
    split; [exact Hf|].
    change (dispatches (Dispatch tag payload :: evs))
      with ((tag, payload) :: dispatches evs).
    rewrite Hd. cbn. lia.
Qed.

(** One turn of the loop over polite handlers. *)
Lemma read_loop_self_turn n c :
  let got := (recv_from RECV_SIZE (transport c)).1 in
  let t' := (recv_from RECV_SIZE (transport c)).2 in
  let buf := buffer c ++ got in
  let i := bytes_find NUL buf in
  let raw := slice_to buf i in
  (got = []
   /\ read_loop_self hs (S n) c
      = (Ret tt, {| transport := t'; buffer := buffer c;
                    trace := trace c
                             ++ [Log DEBUG "Connection terminated by client"] |}))
  \/ (got <> [] /\ i = -1
      /\ read_loop_self hs (S n) c
         = read_loop_self hs n {| transport := t'; buffer := buf;
                                  trace := trace c |})
  \/ (got <> [] /\ i <> -1
      /\ exists o c2 evs,
           buffer c2 = slice_from buf i
           /\ trace c2 = trace c ++ Frame raw :: evs
           /\ frames evs = []
           /\ (length (dispatches evs) <= 1)%nat
           /\ ((dispatches evs = []
                /\ read_loop_self hs (S n) c = (Ret tt, c2))
               \/ ((exists text msg,
                      bytes_decode raw = Some text
                      /\ json_loads text = Some msg)
                   /\ read_loop_self hs (S n) c
                      = match o with
                        | Ret _ => read_loop_self hs n c2
                        | _ => (o, c2)
                        end))).
Proof.
  intros got t' buf i raw.
  pose proof (read_loop_self_step n c) as Hs. cbv zeta in Hs.
  change ((recv_from RECV_SIZE (transport c)).1) with got in Hs.
  change ((recv_from RECV_SIZE (transport c)).2) with t' in Hs.
  change (buffer c ++ got) with buf in Hs.
  change (bytes_find NUL buf) with i in Hs.
  change (slice_to buf i) with raw in Hs.
  destruct (decide (got = [])) as [Eg|Eg].
  { left. split; [done|]. rewrite Hs, Eg. reflexivity. }
  right.
  set (c1 := {| transport := t'; buffer := slice_from buf i;
                trace := trace c ++ [Frame raw] |}) in *.
  assert (read_loop_self hs (S n) c =
    if i =? -1 then
      read_loop_self hs n
        {| transport := t'; buffer := buf; trace := trace c |}
    else
      match bytes_decode raw with
      | None =>
        (Ret tt, after c1 [Log ERROR "Couldn't decode message as UTF-8"])
      | Some text =>
        match json_loads text with
        | None => (Ret tt, after c1 [Log ERROR "Malformed JSON message"])
        | Some msg =>
          match _process_message_self hs msg c1 with
          | (Ret _, c2) => read_loop_self hs n c2
          | (Raise e, c2) => (Raise e, c2)
          | (Fuel, c2) => (Fuel, c2)
          end
        end
      end) as Hs'.
  { rewrite Hs. destruct got; [done|]. reflexivity. }
  clear Hs. destruct (Z.eqb_spec i (-1)) as [Hi|Hi]; [left; done|].
  right. split; [done|]. split; [done|].
  destruct (bytes_decode raw) as [text|] eqn:Hb.
  2:{ exists (Ret tt), (after c1 [Log ERROR "Couldn't decode message as UTF-8"]),
        [Log ERROR "Couldn't decode message as UTF-8"].
      cbn [after c1 buffer trace]. rewrite <- app_assoc.
      repeat split; try done; [cbn; lia | by left]. }
  destruct (json_loads text) as [msg|] eqn:Hj.
  2:{ exists (Ret tt), (after c1 [Log ERROR "Malformed JSON message"]),
        [Log ERROR "Malformed JSON message"].
      cbn [after c1 buffer trace]. rewrite <- app_assoc.
      repeat split; try done; [cbn; lia | by left]. }
  destruct (process_message_self_polite msg c1)
    as (o & c2 & evs & Hp & Hbuf & Htr & Hf & Hd).
  rewrite Hp in Hs'. exists o, c2, evs.
  split; [exact Hbuf|]. split.
  { rewrite Htr. cbn [c1 trace]. by rewrite <- app_assoc. }
  split; [exact Hf|]. split; [exact Hd|].
  right. split; [by exists text, msg|].
  rewrite Hs'. by destruct o as [[]| |].
Qed.

(** With the terminator at the head of the buffer every slice is empty. *)
Lemma later_frames_empty_self fuel : forall c r,
  buffer c = NUL :: r ->
  exists evs,
    trace (read_loop_self hs fuel c).2 = trace c ++ evs
    /\ Forall (fun f => f = []) (frames evs).
Proof.
  induction fuel as [|fuel IH]; intros c r Hb.
  { exists []. cbn. split; [by rewrite app_nil_r | constructor]. }
  pose proof (read_loop_self_turn fuel c) as Hturn. cbv zeta in Hturn.
  rewrite Hb in Hturn.
  destruct (slice_at_terminator r (recv_from RECV_SIZE (transport c)).1)
    as (Hi & Hto & Hfrom).
  rewrite Hi, Hto, Hfrom in Hturn.
  destruct Hturn
    as [[_ ->] | [(_ & Hi' & _)
        | (_ & _ & o & c2 & evs & Hbuf & Htr & Hf & _ & Hrun)]];
    [|discriminate Hi'|].
  - eexists. split; [reflexivity | constructor].
  - assert (Forall (fun f : bytes => f = []) (frames (Frame [] :: evs)))
      as Hall by (rewrite frames_frame, Hf; by constructor).
    destruct Hrun as [[_ ->] | [_ ->]];
      [exists (Frame [] :: evs); by split|].
    destruct o as [[]|e|]; [|exists (Frame [] :: evs); by split..].
    destruct (IH c2 _ Hbuf) as (evs' & -> & Hall').
    exists ((Frame [] :: evs) ++ evs'). split.
    + rewrite Htr. by rewrite <- app_assoc.
    + rewrite frames_app. by apply Forall_app_2.
Qed.

(** X12.  Over handlers that leave [self.buffer] alone and do not
    themselves slice or dispatch, every slice [_read_json] takes after
    the first one is empty: the terminator of a frame stays at the head
    of the buffer, so the next search finds it at index 0. *)
Theorem read_json_self_later_frames_empty (t : list bytes) :
  Forall (fun f => f = [])
    (tail (frames (trace (_read_json_self hs (fresh t)).2))).
Proof.
  assert (forall fuel c, exists evs,
    trace (read_loop_self hs fuel c).2 = trace c ++ evs
    /\ Forall (fun f => f = []) (tail (frames evs))) as Hloop.
  { induction fuel as [|fuel IH]; intros c.
    { exists []. cbn. split; [by rewrite app_nil_r | constructor]. }
    pose proof (read_loop_self_turn fuel c) as Hturn. cbv zeta in Hturn.
    destruct Hturn
      as [[_ ->] | [(_ & _ & ->)
          | (_ & Hi & o & c2 & evs & Hbuf & Htr & Hf & _ & Hrun)]].
    - eexists. split; [reflexivity | constructor].
    - match goal with |- context [read_loop_self hs fuel ?c2] =>
        apply (IH c2) end.
    - destruct (slice_from_terminator _ Hi) as (r & Hr).
      rewrite Hr in Hbuf.
      assert (forall evs', Forall (fun f : bytes => f = []) (frames evs') ->
        Forall (fun f : bytes => f = [])
          (tail (frames ((Frame (slice_to
             (buffer c ++ (recv_from RECV_SIZE (transport c)).1)
             (bytes_find NUL
                (buffer c ++ (recv_from RECV_SIZE (transport c)).1)))
             :: evs) ++ evs')))) as Hall.
      { intros evs' He. by rewrite frames_app, frames_frame, Hf. }
      destruct Hrun as [[_ ->] | [_ ->]].
      { eexists. split; [exact Htr|].
        rewrite <- (app_nil_r (_ :: evs)). apply Hall. constructor. }
      destruct o as [[]|e|].
      + destruct (later_frames_empty_self fuel c2 r Hbuf)
          as (evs' & -> & Hall').
        eexists. split; [rewrite Htr; by rewrite <- app_assoc|].
        by apply Hall.
      + eexists. split; [exact Htr|].
        rewrite <- (app_nil_r (_ :: evs)). apply Hall. constructor.
      + eexists. split; [exact Htr|].
        rewrite <- (app_nil_r (_ :: evs)). apply Hall. constructor. }
  unfold _read_json_self, mbind, M_bind, set_buffer. cbn [fresh transport].
  match goal with |- context [read_loop_self hs ?f ?c0] =>
    destruct (Hloop f c0) as (evs & -> & Hall) end.
  exact Hall.
Qed.

Section EmptyText.
Hypothesis empty_not_json :
  forall text, bytes_decode [] = Some text -> json_loads text = None.

(** With the terminator at the head of the buffer the next bytes end the
    loop: the empty slice is not JSON. *)
Lemma stop_after_frame_self fuel c r :
  buffer c = NUL :: r ->
  exists evs,
    trace (read_loop_self hs fuel c).2 = trace c ++ evs
    /\ dispatches evs = []
    /\ (length (frames evs) <= 1)%nat.
Proof.
  intros Hb. destruct fuel as [|fuel].
  { exists []. cbn. split; [by rewrite app_nil_r | split; [done | lia]]. }
  pose proof (read_loop_self_turn fuel c) as Hturn. cbv zeta in Hturn.
  rewrite Hb in Hturn.
  destruct (slice_at_terminator r (recv_from RECV_SIZE (transport c)).1)
    as (Hi & Hto & Hfrom).
  rewrite Hi, Hto, Hfrom in Hturn.
  destruct Hturn
    as [[_ ->] | [(_ & Hi' & _)
        | (_ & _ & o & c2 & evs & _ & Htr & Hf & _ & Hrun)]];
    [|discriminate Hi'|].
  - eexists. split; [reflexivity|]. cbn. split; [done | lia].
  - destruct Hrun as [[Hd ->] | [(text & msg & Hdec & Hj) _]].
    + exists (Frame [] :: evs). split; [exact Htr|].
      rewrite dispatches_frame, frames_frame, Hf. split; [exact Hd|].
      cbn. lia.
    + rewrite (empty_not_json text Hdec) in Hj. discriminate.
Qed.

(** X14.  Over handlers that leave [self.buffer] alone and do not
    themselves slice or dispatch, and when the empty text is not JSON
    for the library (it is not for Python's), a connection sees at most
    one handler call and at most two slices: the slice after a processed
    frame is empty and ends [_read_json]. *)
Theorem read_json_self_one_dispatch (t : list bytes) :
  (length (dispatches (trace (_read_json_self hs (fresh t)).2)) <= 1)%nat
  /\ (length (frames (trace (_read_json_self hs (fresh t)).2)) <= 2)%nat.
Proof.
  assert (forall fuel c, exists evs,
    trace (read_loop_self hs fuel c).2 = trace c ++ evs
    /\ (length (dispatches evs) <= 1)%nat
    /\ (length (frames evs) <= 2)%nat) as Hloop.
  { induction fuel as [|fuel IH]; intros c.
    { exists []. cbn. split; [by rewrite app_nil_r | lia]. }
    pose proof (read_loop_self_turn fuel c) as Hturn. cbv zeta in Hturn.
    destruct Hturn
      as [[_ ->] | [(_ & _ & ->)
          | (_ & Hi & o & c2 & evs & Hbuf & Htr & Hf & Hd & Hrun)]].
    - eexists. split; [reflexivity|]. cbn. lia.
    - match goal with |- context [read_loop_self hs fuel ?c2] =>
        apply (IH c2) end.
    - destruct (slice_from_terminator _ Hi) as (r & Hr).
      rewrite Hr in Hbuf.
      assert (exists evs0,
        trace c2 = trace c ++ evs0
        /\ (length (dispatches evs0) <= 1)%nat
        /\ (length (frames evs0) <= 1)%nat) as Hstop.
      { eexists. split; [exact Htr|].
        rewrite dispatches_frame, frames_frame, Hf. cbn [length]. lia. }
      destruct Hrun as [[_ ->] | [_ ->]].
      { destruct Hstop as (evs0 & H0 & ? & ?). exists evs0.
        split; [exact H0 | lia]. }
      destruct o as [[]|e|].
      + destruct (stop_after_frame_self fuel c2 r Hbuf)
          as (evs' & -> & Hd' & Hf').
        eexists. split; [rewrite Htr; by rewrite <- app_assoc|].
        rewrite dispatches_app, frames_app, dispatches_frame, frames_frame.
        rewrite Hd', Hf, app_nil_r. cbn [app length]. lia.
      + destruct Hstop as (evs0 & H0 & ? & ?). exists evs0.
        split; [exact H0 | lia].
      + destruct Hstop as (evs0 & H0 & ? & ?). exists evs0.
        split; [exact H0 | lia]. }
  unfold _read_json_self, mbind, M_bind, set_buffer. cbn [fresh transport].
  match goal with |- context [read_loop_self hs ?f ?c0] =>
    destruct (Hloop f c0) as (evs & -> & Hall) end.
  exact Hall.
Qed.
End EmptyText.
End Polite.
End SelfHandlers.

(* 6.16 the two readings of a handler agree *)

Section Blind.
Context `{PyLib}.
Variable hs : gmap pystr type_handler.

(** On handlers that ignore the connection, the dispatcher and the loop
    of this section are those of section 5. *)
Lemma process_message_self_blind msg c :
  _process_message_self (blind <$> hs) msg c = _process_message hs msg c.
Proof.
  destruct msg as [ | ? | ? | ? | ? | ? | ? | d]; try reflexivity.
  unfold _process_message_self, _process_message, dict_contains, dict_getitem.
  destruct (dict_lookup (str_ "type") d) as [t|]; [|reflexivity].
  destruct (dict_lookup (str_ "entity") d) as [payload|]; [|reflexivity].
  cbn [negb]. unfold mbind, M_bind, mret, M_ret, lift. cbn beta iota.
  unfold table_contains, handlers_contains, table_getitem, handlers_getitem.
  destruct (hashable t); [|reflexivity]. cbn [negb].
  destruct t as [ | ? | ? | ? | tag | ? | ? | ?]; try reflexivity.
  rewrite lookup_fmap. destruct (hs !! tag) as [h|]; cbn [fmap option_fmap option_map].
  - rewrite !bool_decide_eq_true_2 by eauto. cbn [negb].
    unfold blind, emit, lift, returned. cbn. by destruct (h payload).
  - rewrite !bool_decide_eq_false_2 by (by intros [? ?]). reflexivity.
Qed.

Lemma read_loop_self_blind fuel : forall c,
  read_loop_self (blind <$> hs) fuel c = read_loop hs fuel c.
Proof.
  induction fuel as [|fuel IH]; intros c; [reflexivity|].
  rewrite read_loop_self_step, read_loop_step. cbv zeta.
  destruct ((recv_from RECV_SIZE (transport c)).1); [reflexivity|].
  destruct (_ =? -1); [apply IH|].
  destruct (bytes_decode _); [|reflexivity].
  destruct (json_loads _); [|reflexivity].
  rewrite process_message_self_blind.
  destruct (_process_message hs _ _) as [[[]|e|] c2];
    [apply IH | reflexivity | reflexivity].
Qed.

Lemma read_json_self_blind c :
  _read_json_self (blind <$> hs) c = _read_json hs c.
Proof.
  unfold _read_json_self, _read_json, mbind, M_bind, set_buffer.
  apply read_loop_self_blind.
Qed.

(** [send], used as a handler, is polite. *)
Lemma send_polite (tag : pyval) : polite (send tag).
Proof.
  intros payload c. unfold send, mbind, M_bind, lift.
  destruct (json_dumps _) as [text|e|];
    [|split; [done|]; exists []; by rewrite app_nil_r..].
  destruct (str_encode text) as [data|e|];
    [|split; [done|]; exists []; by rewrite app_nil_r..].
  cbn. split; [done|]. by eexists.
Qed.
End Blind.

Lemma replying_table_polite tag h :
  ({[ str_ "error" := replying ]} : gmap pystr self_handler) !! tag = Some h ->
  polite h.
Proof.
  intros [_ <-]%lookup_singleton_Some. apply send_polite.
Qed.

Lemma process_message_self_unhandled_witness :
  _process_message_self {[ str_ "error" := replying ]}
    (PDict [(str_ "entity", PStr (str_ "k"))]) (fresh [])
  = (Raise KeyError, fresh [])
  /\ _process_message_self {[ str_ "error" := replying ]}
       (PDict [(str_ "type", PList []); (str_ "entity", PStr (str_ "k"))])
       (fresh [])
     = (Raise TypeError, fresh [])
  /\ _process_message_self {[ str_ "error" := replying ]}
       (PDict [(str_ "type", PStr (str_ "unknown"));
               (str_ "entity", PDict [])])
       (fresh [])
     = (Raise AttributeError, fresh []).
Proof.
  split; [|split].
  - apply (process_message_self_unhandled {[ str_ "error" := replying ]}).
    reflexivity.
  - eapply (proj1 (proj2 (process_message_self_unhandled
                            {[ str_ "error" := replying ]} _ _)));
      reflexivity.
  - eapply (proj2 (proj2 (process_message_self_unhandled
                            {[ str_ "error" := replying ]} _ _)));
      try reflexivity.
    intros tag [= <-]. reflexivity.
Defined.

Lemma read_json_self_later_frames_empty_witness :
  Forall (fun f => f = [])
    (tail (frames (trace (_read_json_self {[ str_ "error" := replying ]}
                            (fresh [error_k ++ [NUL]; error_j ++ [NUL]])).2))).
Proof.
  apply (read_json_self_later_frames_empty {[ str_ "error" := replying ]}).
  exact replying_table_polite.
Defined.

Lemma read_json_self_one_dispatch_witness :
  (length (dispatches
             (trace (_read_json_self {[ str_ "error" := replying ]}
                       (fresh [error_k ++ [NUL]; error_j ++ [NUL]])).2))
   <= 1)%nat
  /\ (length (frames
                (trace (_read_json_self {[ str_ "error" := replying ]}
                          (fresh [error_k ++ [NUL]; error_j ++ [NUL]])).2))
      <= 2)%nat.
Proof.
  apply (read_json_self_one_dispatch {[ str_ "error" := replying ]}).
  - exact replying_table_polite.
  - intros text Hd. vm_compute in Hd. injection Hd as <-. reflexivity.
Defined.
